(** * SMA crossover strategy ([src/sma_strategy.py])

    A shallow embedding of [SmaStrategy.initialize] and [SmaStrategy.on_bar]
    together with the slice of pandas they call ([Series.rolling(...).mean()],
    [Series.iloc], [pd.isna], [DataFrame.empty]).

    Conventions of the embedding:
    - a Python [int] is a [Z];
    - a pandas float cell is an IEEE 754 binary64 number, [float]; sums,
      differences and quotients round to nearest-even as the hardware does;
    - the rolling mean is the sliding computation of pandas' [roll_mean]: one
      compensated running sum carried from the first row on;
    - a Python exception is the [Raise] branch of the [exn] monad, and
      [try ... except Exception] is [try_except];
    - the host object [context] is threaded explicitly: [on_bar] takes the
      context before the call and returns the context after it. *)

From Stdlib Require Import ZArith Bool List Lia.
From Corelib Require SpecFloat.
From stdpp Require Import base option list gmap strings fin_maps.

Local Open Scope string_scope.
Local Open Scope list_scope.
Local Open Scope Z_scope.

(** ** Exceptions *)

Inductive PyErr : Type :=
| ValueError
| IndexError
| AttributeError.

Inductive exn (A : Type) : Type :=
| Ok (a : A)
| Raise (e : PyErr).

Arguments Ok {A} a.
Arguments Raise {A} e.

#[global] Instance exn_ret : MRet exn := fun _ a => Ok a.

#[global] Instance exn_bind : MBind exn := fun _ _ f m =>
  match m with
  | Ok a => f a
  | Raise e => Raise e
  end.

#[global] Instance exn_fmap : FMap exn := fun _ _ f m =>
  match m with
  | Ok a => Ok (f a)
  | Raise e => Raise e
  end.

(** [try: body / except Exception as e: handler e], followed by the rest of
    the function, which runs outside the [try] block. *)
Definition try_except {A B : Type}
    (body : exn A) (handler : PyErr -> exn B) (rest : A -> exn B) : exn B :=
  match body with
  | Ok a => rest a
  | Raise e => handler e
  end.

(** Python's short-circuit [a or b], where evaluating [b] may raise. *)
Definition or_else (a : bool) (b : exn bool) : exn bool :=
  if a then Ok true else b.

(** ** binary64 numbers *)

Abbreviation float := SpecFloat.spec_float.
Abbreviation NaN := SpecFloat.S754_nan.

Definition prec : Z := 53.
Definition emax : Z := 1024.

Definition fadd (x y : float) : float := SpecFloat.SFadd prec emax x y.
Definition fsub (x y : float) : float := SpecFloat.SFsub prec emax x y.
Definition fdiv (x y : float) : float := SpecFloat.SFdiv prec emax x y.
Definition fneg (x : float) : float := SpecFloat.SFopp x.

(** Comparisons; as in IEEE, every comparison with [NaN] is false. *)
Definition feq (x y : float) : bool := SpecFloat.SFeqb x y.
Definition flt (x y : float) : bool := SpecFloat.SFltb x y.
Definition fle (x y : float) : bool := SpecFloat.SFleb x y.
Definition fge (x y : float) : bool := fle y x.
Definition fgt (x y : float) : bool := flt y x.

(** The double nearest to an integer, and the constant [0.0]. *)
Definition of_int (z : Z) : float := SpecFloat.binary_normalize prec emax z 0 false.
Definition zero : float := SpecFloat.S754_zero false.

Definition isna (x : float) : bool :=
  match x with
  | SpecFloat.S754_nan => true
  | _ => false
  end.

Definition isinf (x : float) : bool :=
  match x with
  | SpecFloat.S754_infinity _ => true
  | _ => false
  end.

Definition signbit (x : float) : bool :=
  match x with
  | SpecFloat.S754_zero s
  | SpecFloat.S754_infinity s
  | SpecFloat.S754_finite s _ _ => s
  | SpecFloat.S754_nan => false
  end.

(** ** pandas: series, frames *)

Abbreviation Series := (list float).

(** A frame: its row index (bar timestamps) and its named columns. *)
Record DataFrame : Type := {
  index : list Z;
  columns : gmap string Series
}.

(** [DataFrame.empty]: some axis has length 0. *)
Definition df_empty (df : DataFrame) : bool :=
  bool_decide (length (index df) = 0%nat) || bool_decide (columns df = ∅).

(** [obj.iloc[k]] for a possibly negative position [k]. *)
Definition iloc {A : Type} (obj : list A) (k : Z) : exn A :=
  let n := Z.of_nat (length obj) in
  let i := if k <? 0 then n + k else k in
  if (i <? 0) || (n <=? i) then Raise IndexError
  else match obj !! Z.to_nat i with
       | Some x => Ok x
       | None => Raise IndexError
       end.

(** *** Rolling windows *)

Record Rolling : Type := {
  window : nat;
  obj : Series
}.

(** [obj.rolling(window=w)]: pandas rejects a negative window with
    [ValueError("window must be an integer 0 or greater")]. *)
Definition rolling (s : Series) (w : Z) : exn Rolling :=
  if w <? 0 then Raise ValueError
  else Ok {| window := Z.to_nat w; obj := s |}.

(** The bounds of the fixed window of row [i]: rows [window_start w i] up
    to, not including, [window_end w i].  A window of zero rows is empty. *)
Definition window_start (w i : nat) : nat :=
  if (w =? 0)%nat then i else (S i - w)%nat.

Definition window_end (w i : nat) : nat :=
  if (w =? 0)%nat then i else S i.

(** [values[a:b]] *)
Definition slice (values : Series) (a b : nat) : Series :=
  take (b - a) (drop a values).

(** The running state of [roll_mean] (pandas/_libs/window/aggregations.pyx):
    the number of observations in the window, their compensated sum, the
    number of negative ones, the two Kahan compensations, and the length of
    the run of equal values that ends at the last value added. *)
Record MeanState : Type := {
  nobs : Z;
  sum_x : float;
  neg_ct : Z;
  compensation_add : float;
  compensation_remove : float;
  num_consecutive_same_value : Z;
  prev_value : float
}.

(** [add_mean]: take a value into the running sum (Kahan summation); a
    not-a-number value is skipped. *)
Definition add_mean (st : MeanState) (val : float) : MeanState :=
  if feq val val then
    let y := fsub val (compensation_add st) in
    let t := fadd (sum_x st) y in
    {| nobs := nobs st + 1;
       sum_x := t;
       neg_ct := if signbit val then neg_ct st + 1 else neg_ct st;
       compensation_add := fsub (fsub t (sum_x st)) y;
       compensation_remove := compensation_remove st;
       num_consecutive_same_value :=
         if feq val (prev_value st) then num_consecutive_same_value st + 1 else 1;
       prev_value := val |}
  else st.

(** [remove_mean]: take a value out of the running sum. *)
Definition remove_mean (st : MeanState) (val : float) : MeanState :=
  if feq val val then
    let y := fsub (fneg val) (compensation_remove st) in
    let t := fadd (sum_x st) y in
    {| nobs := nobs st - 1;
       sum_x := t;
       neg_ct := if signbit val then neg_ct st - 1 else neg_ct st;
       compensation_add := compensation_add st;
       compensation_remove := fsub (fsub t (sum_x st)) y;
       num_consecutive_same_value := num_consecutive_same_value st;
       prev_value := prev_value st |}
  else st.

(** [calc_mean]: the value of one output cell.  A window too short of
    observations gives not-a-number; a window of equal values gives that
    value itself; a mean whose sign contradicts the signs of its values is
    replaced by [0.0]. *)
Definition calc_mean (minp : Z) (st : MeanState) : float :=
  if (minp <=? nobs st) && (0 <? nobs st) then
    let result := fdiv (sum_x st) (of_int (nobs st)) in
    if nobs st <=? num_consecutive_same_value st then prev_value st
    else if (neg_ct st =? 0) && flt result zero then zero
    else if (neg_ct st =? nobs st) && fgt result zero then zero
    else result
  else NaN.

(** The state a window is started from. *)
Definition setup (values : Series) (s : nat) : MeanState :=
  {| nobs := 0;
     sum_x := zero;
     neg_ct := 0;
     compensation_add := zero;
     compensation_remove := zero;
     num_consecutive_same_value := 0;
     prev_value := default NaN (values !! s) |}.

(** One turn of the loop of [roll_mean], for row [i]: start afresh on the
    first row and when the window does not overlap the previous one,
    otherwise drop the rows that left the window and add the new ones. *)
Definition roll_row (values : Series) (w : nat) (st : MeanState) (i : nat) : MeanState :=
  let s := window_start w i in
  let e := window_end w i in
  if (i =? 0)%nat || (window_end w (i - 1) <=? s)%nat then
    foldl add_mean (setup values s) (slice values s e)
  else
    let st := foldl remove_mean st (slice values (window_start w (i - 1)) s) in
    foldl add_mean st (slice values (window_end w (i - 1)) e).

Fixpoint roll_loop (values : Series) (w : nat) (minp : Z) (rows : list nat)
    (st : MeanState) : Series :=
  match rows with
  | [] => []
  | i :: rows =>
      let st := roll_row values w st i in
      calc_mean minp st :: roll_loop values w minp rows st
  end.

(** [roll_mean(values, start, end, minp)] for the bounds of a fixed window
    of [w] rows. *)
Definition roll_mean (values : Series) (w : nat) (minp : Z) : Series :=
  roll_loop values w minp (seq 0 (length values)) (setup values 0).

(** pandas hands infinities to [roll_mean] as not-a-number. *)
Definition prep_values (values : Series) : Series :=
  (fun x => if isinf x then NaN else x) <$> values.

(** [Rolling.mean()] with the default [min_periods = window]. *)
Definition mean (r : Rolling) : Series :=
  roll_mean (prep_values (obj r)) (window r) (Z.of_nat (window r)).

(** The moving average the strategy reads: cell [k] of
    [s.rolling(window=w).mean()]. *)
Definition moving_average (s : Series) (w : Z) (k : Z) : exn float :=
  r ← rolling s w; iloc (mean r) k.

(** ** The host: positions, orders, log *)

Inductive Action : Type :=
| BUY
| SELL.

(** A trade instruction handed to the host: [context.buy(symbol, quantity)]
    or [context.sell(symbol, quantity)]. *)
Record TradeDecision : Type := {
  action : Action;
  instrument : string;
  shares : Z
}.

(** The lines written with [context.log]; the numbers of a signal line are
    kept as values rather than as formatted text. *)
Inductive LogLine : Type :=
| LogInitialized (sym : string)
| LogSignal (bar : Z) (a : Action) (sym : string) (fast_ma slow_ma : float).

Record Position : Type := {
  quantity : Z
}.

Record Context : Type := {
  symbols : list string;
  positions : gmap string Position;
  log_lines : list LogLine;
  orders : list TradeDecision
}.

Definition set_symbols (context : Context) (syms : list string) : Context :=
  {| symbols := syms;
     positions := positions context;
     log_lines := log_lines context;
     orders := orders context |}.

Definition log (context : Context) (line : LogLine) : Context :=
  {| symbols := symbols context;
     positions := positions context;
     log_lines := log_lines context ++ [line];
     orders := orders context |}.

Definition submit (context : Context) (d : TradeDecision) : Context :=
  {| symbols := symbols context;
     positions := positions context;
     log_lines := log_lines context;
     orders := orders context ++ [d] |}.

Definition buy (context : Context) (sym : string) (n : Z) : Context :=
  submit context {| action := BUY; instrument := sym; shares := n |}.

Definition sell (context : Context) (sym : string) (n : Z) : Context :=
  submit context {| action := SELL; instrument := sym; shares := n |}.

Definition get_position (context : Context) (sym : string) : option Position :=
  positions context !! sym.

(** What the host may store under a symbol of [bar_dict]: a pandas frame,
    or a plain dict of columns, which answers [in] and [[...]] but has
    neither [.empty] nor [.index]. *)
Inductive BarData : Type :=
| Frame (df : DataFrame)
| Mapping (d : gmap string Series).

(** [bars[key]] when [key in bars], [None] otherwise. *)
Definition column (bars : BarData) (key : string) : option Series :=
  match bars with
  | Frame df => columns df !! key
  | Mapping d => d !! key
  end.

(** [bars.empty] *)
Definition empty (bars : BarData) : exn bool :=
  match bars with
  | Frame df => Ok (df_empty df)
  | Mapping _ => Raise AttributeError
  end.

(** [bars.index[k]] *)
Definition index_at (bars : BarData) (k : Z) : exn Z :=
  match bars with
  | Frame df => iloc (index df) k
  | Mapping _ => Raise AttributeError
  end.

(** ** The strategy *)

Record Parameters : Type := {
  symbol : string;
  fast_period : Z;
  slow_period : Z;
  trade_size : Z
}.

(** [SmaStrategy.initialize]: the parameters it stores in [self] and the
    context it leaves behind. *)
Definition initialize (context : Context) : Parameters * Context :=
  let parameters :=
    {| symbol := "AAPL"; fast_period := 10; slow_period := 30; trade_size := 100 |} in
  let context := set_symbols context [symbol parameters] in
  (parameters, log context (LogInitialized (symbol parameters))).

(** [SmaStrategy.on_bar].  Every [return] of the source is [Ok] of the
    context reached so far. *)
Definition on_bar (self : Parameters) (context : Context)
    (bar_dict : gmap string BarData) : exn Context :=
  let sym := symbol self in
  match bar_dict !! sym with
  | None => Ok context
  | Some bars =>
    match column bars "close" with
    | None => Ok context
    | Some close =>
      is_empty ← empty bars;
      if is_empty : bool then Ok context
      else if Z.of_nat (length close) <? slow_period self then Ok context
      else
        try_except
          (fast_ma_series ← mean <$> rolling close (fast_period self);
           slow_ma_series ← mean <$> rolling close (slow_period self);
           mret (fast_ma_series, slow_ma_series))
          (fun e => Ok context)
          (fun '(fast_ma_series, slow_ma_series) =>
             missing ←
               or_else (Z.of_nat (length fast_ma_series) <? 2)
              (or_else (Z.of_nat (length slow_ma_series) <? 2)
              (x ← iloc fast_ma_series (-1); or_else (isna x)
              (x ← iloc fast_ma_series (-2); or_else (isna x)
              (x ← iloc slow_ma_series (-1); or_else (isna x)
              (x ← iloc slow_ma_series (-2); mret (isna x))))));
             if missing : bool then Ok context
             else
               fast_ma_prev ← iloc fast_ma_series (-2);
               fast_ma_curr ← iloc fast_ma_series (-1);
               slow_ma_prev ← iloc slow_ma_series (-2);
               slow_ma_curr ← iloc slow_ma_series (-1);
               let position := get_position context sym in
               let current_quantity :=
                 match position with
                 | Some pos => quantity pos
                 | None => 0
                 end in
               if fle fast_ma_prev slow_ma_prev && fgt fast_ma_curr slow_ma_curr then
                 if current_quantity <=? 0 then
                   bar ← index_at bars (-1);
                   let context :=
                     log context (LogSignal bar BUY sym fast_ma_curr slow_ma_curr) in
                   Ok (buy context sym (trade_size self))
                 else Ok context
               else if fge fast_ma_prev slow_ma_prev && flt fast_ma_curr slow_ma_curr then
                 if 0 <? current_quantity then
                   bar ← index_at bars (-1);
                   let context :=
                     log context (LogSignal bar SELL sym fast_ma_curr slow_ma_curr) in
                   Ok (sell context sym (trade_size self))
                 else Ok context
               else Ok context)
    end
  end.

(** ** The detector's operation [evaluate]

    The specification's [evaluate(price_history, fast_period, slow_period,
    current_quantity)] is one call of [on_bar] by a host that holds
    [current_quantity] of the instrument, has placed no order yet, and
    delivers [price_history] as the [close] column of the instrument's
    frame ([None]: no frame is delivered).  Its result is the list of trade
    decisions the call hands to the host: [[]] is "no decision". *)

Definition host_frame (price_history : Series) : DataFrame :=
  {| index := Z.of_nat <$> seq 0 (length price_history);
     columns := {[ "close" := price_history ]} |}.

Definition host_bars (self : Parameters) (price_history : option Series)
    : gmap string BarData :=
  match price_history with
  | None => ∅
  | Some h => {[ symbol self := Frame (host_frame h) ]}
  end.

Definition host_context (self : Parameters) (current_quantity : Z) : Context :=
  {| symbols := [symbol self];
     positions := {[ symbol self := {| quantity := current_quantity |} ]};
     log_lines := [];
     orders := [] |}.

Definition evaluate (self : Parameters) (price_history : option Series)
    (current_quantity : Z) : exn (list TradeDecision) :=
  orders <$> on_bar self (host_context self current_quantity)
                    (host_bars self price_history).

(** The last [n] elements of a list (the whole list when it is shorter). *)
Definition lastn {A : Type} (n : nat) (l : list A) : list A :=
  drop (length l - n) l.

(** The quantity [on_bar] works with: [position.quantity if position else 0]. *)
Definition held_quantity_of (context : Context) (sym : string) : Z :=
  match get_position context sym with
  | Some pos => quantity pos
  | None => 0
  end.

(** The trading logic of [on_bar] in closed form, on the four moving
    averages: the decisions it hands to the host. *)
Definition decision_rule (self : Parameters) (current_quantity : Z)
    (fast_prev fast_curr slow_prev slow_curr : float) : list TradeDecision :=
  if fle fast_prev slow_prev && fgt fast_curr slow_curr then
    if current_quantity <=? 0
    then [ {| action := BUY; instrument := symbol self; shares := trade_size self |} ]
    else []
  else if fge fast_prev slow_prev && flt fast_curr slow_curr then
    if 0 <? current_quantity
    then [ {| action := SELL; instrument := symbol self; shares := trade_size self |} ]
    else []
  else [].

(** The same trading logic as a step on the host context, for the bar
    stamped [bar]. *)
Definition respond (self : Parameters) (context : Context) (bar : Z)
    (fast_prev fast_curr slow_prev slow_curr : float) : Context :=
  let current_quantity := held_quantity_of context (symbol self) in
  if fle fast_prev slow_prev && fgt fast_curr slow_curr then
    if current_quantity <=? 0
    then buy (log context (LogSignal bar BUY (symbol self) fast_curr slow_curr))
             (symbol self) (trade_size self)
    else context
  else if fge fast_prev slow_prev && flt fast_curr slow_curr then
    if 0 <? current_quantity
    then sell (log context (LogSignal bar SELL (symbol self) fast_curr slow_curr))
              (symbol self) (trade_size self)
    else context
  else context.

(** The four moving averages [on_bar] reads from a [close] column that is
    at least [slow_period] long, all of them defined. *)
Definition averages (self : Parameters) (close : Series)
    (fast_prev fast_curr slow_prev slow_curr : float) : Prop :=
  slow_period self <= Z.of_nat (length close)
  /\ moving_average close (fast_period self) (-2) = Ok fast_prev
  /\ moving_average close (fast_period self) (-1) = Ok fast_curr
  /\ moving_average close (slow_period self) (-2) = Ok slow_prev
  /\ moving_average close (slow_period self) (-1) = Ok slow_curr
  /\ isna fast_prev = false /\ isna fast_curr = false
  /\ isna slow_prev = false /\ isna slow_curr = false.

(** All guards of [on_bar] pass on [bar_dict]: the frame of the instrument
    is there with a [close] column and at least one row, and the four
    moving averages of the column are defined. *)
Definition guards_pass (self : Parameters) (bar_dict : gmap string BarData)
    (bar : Z) (fast_prev fast_curr slow_prev slow_curr : float) : Prop :=
  exists bars close,
    bar_dict !! symbol self = Some (Frame bars)
    /\ columns bars !! "close" = Some close
    /\ df_empty bars = false
    /\ iloc (index bars) (-1) = Ok bar
    /\ averages self close fast_prev fast_curr slow_prev slow_curr.

(** The entry of [bar_dict] for the symbol is missing or is a frame. *)
Definition frame_or_missing (self : Parameters) (bar_dict : gmap string BarData) : Prop :=
  forall d, bar_dict !! symbol self <> Some (Mapping d).

(** The signed position the host holds once a decision has been filled in
    full.  This is the host's accounting; the strategy only reads
    [quantity]. *)
Definition position_after (current_quantity : Z) (d : TradeDecision) : Z :=
  match action d with
  | BUY => current_quantity + shares d
  | SELL => current_quantity - shares d
  end.

(** The number of cells of a list of values that are observations, that is,
    equal to themselves (not not-a-number). *)
Fixpoint count_obs (l : Series) : Z :=
  match l with
  | [] => 0
  | x :: l => (if feq x x then 1 else 0) + count_obs l
  end.

(** The state of [roll_mean] once row [i] has been processed. *)
Definition row_state (values : Series) (w : nat) (i : nat) : MeanState :=
  foldl (roll_row values w) (setup values 0) (seq 0 (S i)).

(** On a constant column every running state counts no more observations
    than it has seen equal values in a row, and remembers the constant. *)
Definition flat_state (c : float) (st : MeanState) : Prop :=
  nobs st <= num_consecutive_same_value st
  /\ 0 <= num_consecutive_same_value st
  /\ (0 < num_consecutive_same_value st -> prev_value st = c).

(** ** Sample inputs *)

(** A host context before [initialize]. *)
Definition fresh_context : Context :=
  {| symbols := []; positions := ∅; log_lines := []; orders := [] |}.

(** The parameters [initialize] configures. *)
Definition configured : Parameters := fst (initialize fresh_context).

(** A whole-number price, and the double nearest to the decimal [n / d]. *)
Definition price (z : Z) : float := of_int z.

Definition decimal (n d : Z) : float := fdiv (of_int n) (of_int d).

(** A detector with windows 2 and 3. *)
Definition detector_2_3 (sym : string) (size : Z) : Parameters :=
  {| symbol := sym; fast_period := 2; slow_period := 3; trade_size := size |}.

Definition rising : Series := price <$> [10; 10; 10; 12; 14].

Definition falling : Series := price <$> [10; 10; 10; 5].

(** * Properties *)

(** ** Lists and positions *)

Lemma iloc_back {A : Type} (l : list A) (k : nat) (x : A) :
  (0 < k)%nat ->
  iloc l (- Z.of_nat k) = Ok x
  <-> (k <= length l)%nat /\ l !! (length l - k)%nat = Some x.
Proof.
  intros Hk. unfold iloc.
  destruct (Z.ltb_spec (- Z.of_nat k) 0); [|lia].
  destruct (Z.ltb_spec (Z.of_nat (length l) + - Z.of_nat k) 0); simpl.
  - split; [done | lia].
  - destruct (Z.leb_spec (Z.of_nat (length l))
                (Z.of_nat (length l) + - Z.of_nat k)); [lia|].
    replace (Z.to_nat (Z.of_nat (length l) + - Z.of_nat k))
      with (length l - k)%nat by lia.
    destruct (l !! (length l - k)%nat) eqn:E.
    + split; [ intros [= ->]; split; [lia | done] | by intros [_ [= ->]] ].
    + split; [done | by intros [_ ?]].
Qed.

Lemma iloc_back_total {A : Type} (l : list A) (k : nat) :
  (0 < k <= length l)%nat -> exists x, iloc l (- Z.of_nat k) = Ok x.
Proof.
  intros Hk.
  destruct (lookup_lt_is_Some_2 l (length l - k)%nat) as [x Hx]; [lia|].
  exists x. apply iloc_back; [lia|]. split; [lia | done].
Qed.

Lemma length_slice values a b :
  length (slice values a b) = ((b - a) `min` (length values - a))%nat.
Proof. unfold slice. by rewrite length_take, length_drop. Qed.

Lemma slice_split values a b c :
  (a <= b <= c)%nat -> slice values a c = slice values a b ++ slice values b c.
Proof.
  intros H. unfold slice.
  replace (c - a)%nat with ((b - a) + (c - b))%nat by lia.
  rewrite <- take_take_drop, drop_drop.
  by replace (a + (b - a))%nat with b by lia.
Qed.

Lemma slice_take values n a b :
  (b <= n)%nat -> slice (take n values) a b = slice values a b.
Proof.
  intros H. unfold slice.
  destruct (Nat.le_gt_cases b a) as [Hba|Hab].
  - by replace (b - a)%nat with 0%nat by lia.
  - rewrite skipn_firstn_comm, take_take. f_equal. lia.
Qed.

Lemma slice_lookup values a b j x :
  (a <= j < b)%nat -> values !! j = Some x -> In x (slice values a b).
Proof.
  intros Hj Hx. apply list_elem_of_In.
  apply (list_elem_of_lookup_2 _ (j - a)).
  unfold slice. rewrite lookup_take_lt by lia. rewrite lookup_drop.
  by replace (a + (j - a))%nat with j by lia.
Qed.

(** ** Observations *)

Lemma count_obs_app l1 l2 : count_obs (l1 ++ l2) = count_obs l1 + count_obs l2.
Proof. induction l1 as [|x l1 IH]; simpl; [done | lia]. Qed.

Lemma count_obs_bounds l : 0 <= count_obs l <= Z.of_nat (length l).
Proof. induction l as [|x l IH]; simpl; [lia|]. destruct (feq x x); lia. Qed.

Lemma count_obs_all l x :
  count_obs l = Z.of_nat (length l) -> In x l -> feq x x = true.
Proof.
  induction l as [|y l IH]; [done|]. simpl. intros Hc Hin.
  pose proof (count_obs_bounds l).
  destruct (feq y y) eqn:E; [|lia].
  destruct Hin as [<- | Hin]; [done|]. apply IH; [lia | done].
Qed.

Lemma nobs_add st l : nobs (foldl add_mean st l) = nobs st + count_obs l.
Proof.
  revert st. induction l as [|x l IH]; intros st; simpl; [lia|].
  rewrite IH. unfold add_mean. destruct (feq x x); simpl; lia.
Qed.

Lemma nobs_remove st l : nobs (foldl remove_mean st l) = nobs st - count_obs l.
Proof.
  revert st. induction l as [|x l IH]; intros st; simpl; [lia|].
  rewrite IH. unfold remove_mean. destruct (feq x x); simpl; lia.
Qed.

(** ** The rolling mean, row by row *)

Lemma row_state_S values w i :
  row_state values w (S i) = roll_row values w (row_state values w i) (S i).
Proof.
  unfold row_state. rewrite (seq_S (S i)), foldl_app. done.
Qed.

Lemma length_roll_loop values w minp rows st :
  length (roll_loop values w minp rows st) = length rows.
Proof.
  revert st. induction rows as [|i rows IH]; intros st; simpl; [done|].
  by rewrite IH.
Qed.

Lemma roll_loop_lookup values w minp n :
  forall a st k,
    (k < n)%nat ->
    roll_loop values w minp (seq a n) st !! k
    = Some (calc_mean minp (foldl (roll_row values w) st (seq a (S k)))).
Proof.
  induction n as [|n IH]; intros a st k Hk; [lia|].
  destruct k as [|k]; [done|].
  cbn [seq roll_loop]. rewrite lookup_cons. cbn [lookup].
  rewrite IH by lia. done.
Qed.

Lemma length_prep_values values : length (prep_values values) = length values.
Proof. unfold prep_values. by rewrite length_fmap. Qed.

Lemma length_mean r : length (mean r) = length (obj r).
Proof.
  unfold mean, roll_mean.
  by rewrite length_roll_loop, length_seq, length_prep_values.
Qed.

Lemma lookup_mean r i :
  (i < length (obj r))%nat ->
  mean r !! i
  = Some (calc_mean (Z.of_nat (window r))
            (row_state (prep_values (obj r)) (window r) i)).
Proof.
  intros Hi. unfold mean, roll_mean.
  rewrite roll_loop_lookup by (by rewrite length_prep_values). done.
Qed.

Lemma moving_average_Ok s w k x :
  (0 < k)%nat ->
  moving_average s w (- Z.of_nat k) = Ok x <->
  0 <= w /\ (k <= length s)%nat /\
  x = calc_mean (Z.of_nat (Z.to_nat w))
        (row_state (prep_values s) (Z.to_nat w) (length s - k)).
Proof.
  intros Hk. unfold moving_average, rolling.
  destruct (Z.ltb_spec w 0); simpl.
  - split; [done | lia].
  - rewrite iloc_back by done. rewrite length_mean. simpl.
    split.
    + intros [Hlen Hx]. rewrite lookup_mean in Hx by (simpl; lia).
      simpl in Hx. split; [lia|]. split; [done|]. congruence.
    + intros (_ & Hlen & ->). split; [done|].
      rewrite lookup_mean by (simpl; lia). done.
Qed.

Lemma window_bounds w i :
  (window_start w i <= window_end w i)%nat
  /\ (window_start w i <= window_start w (S i))%nat
  /\ (window_end w i <= window_end w (S i))%nat
  /\ (window_end w i - window_start w i <= w)%nat
  /\ (window_end w i <= S i)%nat.
Proof.
  unfold window_start, window_end. destruct (Nat.eqb_spec w 0); lia.
Qed.

(** The running count of observations is the number of observations in the
    window of the row. *)
Lemma nobs_row_state values w i :
  nobs (row_state values w i)
  = count_obs (slice values (window_start w i) (window_end w i)).
Proof.
  induction i as [|i IH].
  - unfold row_state. cbn [seq foldl]. unfold roll_row. cbn [Nat.eqb orb].
    by rewrite nobs_add.
  - rewrite row_state_S. unfold roll_row.
    replace (S i - 1)%nat with i by lia. cbn [Nat.eqb orb].
    destruct (Nat.leb_spec (window_end w i) (window_start w (S i))) as [Hfresh|Hslide].
    + by rewrite nobs_add.
    + rewrite nobs_add, nobs_remove, IH.
      pose proof (window_bounds w i) as (H1 & H2 & H3 & _).
      rewrite (slice_split values (window_start w i) (window_start w (S i))
                 (window_end w i)) by lia.
      rewrite (slice_split values (window_start w (S i)) (window_end w i)
                 (window_end w (S i))) by lia.
      rewrite !count_obs_app. lia.
Qed.

(** ** Defined moving averages *)

Lemma calc_mean_defined minp st :
  isna (calc_mean minp st) = false -> minp <= nobs st /\ 0 < nobs st.
Proof.
  unfold calc_mean.
  destruct (Z.leb_spec minp (nobs st)), (Z.ltb_spec 0 (nobs st)); simpl; try done.
Qed.

Lemma prep_values_lookup_nan s j :
  s !! j = Some NaN -> prep_values s !! j = Some NaN.
Proof. intros H. unfold prep_values. by rewrite list_lookup_fmap, H. Qed.

(** A defined moving average has a full window in which every cell is an
    observation. *)
Lemma moving_average_window s w k x :
  (0 < k)%nat ->
  moving_average s w (- Z.of_nat k) = Ok x ->
  isna x = false ->
  (0 < Z.to_nat w)%nat
  /\ (k <= length s)%nat
  /\ (window_start (Z.to_nat w) (length s - k) + Z.to_nat w
      = window_end (Z.to_nat w) (length s - k))%nat
  /\ (window_end (Z.to_nat w) (length s - k) <= length s)%nat
  /\ forall y,
       In y (slice (prep_values s)
               (window_start (Z.to_nat w) (length s - k))
               (window_end (Z.to_nat w) (length s - k))) ->
       feq y y = true.
Proof.
  intros Hk H Hx. apply moving_average_Ok in H as (Hw & Hlen & ->); [|done].
  apply calc_mean_defined in Hx as [Hmin Hpos].
  rewrite nobs_row_state in Hmin, Hpos.
  set (W := Z.to_nat w) in *. set (i := (length s - k)%nat) in *.
  pose proof (count_obs_bounds
                (slice (prep_values s) (window_start W i) (window_end W i))) as Hc.
  rewrite length_slice, length_prep_values in Hc.
  pose proof (window_bounds W i) as (H1 & _ & _ & H4 & H5).
  split; [lia|]. split; [done|]. split; [lia|]. split; [lia|].
  intros y Hy. eapply count_obs_all; [|exact Hy].
  rewrite length_slice, length_prep_values. lia.
Qed.

(** The previous value of a moving average is defined only when the series
    is longer than the window. *)
Lemma moving_average_prev_full l w x :
  moving_average l w (-2) = Ok x -> isna x = false -> w < Z.of_nat (length l).
Proof.
  intros H Hx.
  pose proof (moving_average_Ok l w 2 x ltac:(lia)) as [Hok _].
  destruct (Hok H) as (Hw & Hlen & _).
  apply (moving_average_window l w 2) in H as (_ & _ & Hfull & _); [|lia|done].
  pose proof (window_bounds (Z.to_nat w) (length l - 2)) as (_ & _ & _ & _ & H5).
  lia.
Qed.

(** A window of zero rows has no observation; a negative one is rejected. *)
Lemma moving_average_no_window l w k x :
  (0 < k)%nat -> w <= 0 ->
  moving_average l w (- Z.of_nat k) = Ok x -> isna x = false -> False.
Proof.
  intros Hk Hw H Hx.
  apply (moving_average_window l w k) in H as (Hpos & _); [|done|done]. lia.
Qed.

(** A not-a-number price among the last [w + 1] rows leaves the current or
    the previous moving average over [w] rows undefined. *)
Lemma nan_in_lookback s w fp fc :
  In NaN (lastn (S (Z.to_nat w)) s) ->
  moving_average s w (-2) = Ok fp -> isna fp = false ->
  moving_average s w (-1) = Ok fc -> isna fc = false ->
  False.
Proof.
  intros Hin Hfp Hnp Hfc Hnc.
  apply (moving_average_window s w 2) in Hfp
    as (Hw & Hlen & Hfull2 & _ & Hprev); [|lia|done].
  apply (moving_average_window s w 1) in Hfc
    as (_ & _ & Hfull1 & _ & Hcurr); [|lia|done].
  apply list_elem_of_In, list_elem_of_lookup in Hin as [j Hj].
  unfold lastn in Hj. rewrite lookup_drop in Hj.
  pose proof (lookup_lt_Some _ _ _ Hj) as Hlt.
  apply prep_values_lookup_nan in Hj.
  assert (window_end (Z.to_nat w) (length s - 1) = length s) as He1
    by (unfold window_end; destruct (Nat.eqb_spec (Z.to_nat w) 0); lia).
  assert (window_end (Z.to_nat w) (length s - 2) = (length s - 1)%nat) as He2
    by (unfold window_end; destruct (Nat.eqb_spec (Z.to_nat w) 0); lia).
  destruct (decide (length s - S (Z.to_nat w) + j = length s - 1)%nat) as [Hlast|Hnot].
  - assert (feq NaN NaN = true) as Habs; [|done].
    apply Hcurr. eapply slice_lookup; [|exact Hj]. lia.
  - assert (feq NaN NaN = true) as Habs; [|done].
    apply Hprev. eapply slice_lookup; [|exact Hj]. lia.
Qed.

(** ** Comparisons *)

Lemma flt_irrefl x : flt x x = false.
Proof.
  unfold flt, SpecFloat.SFltb.
  destruct x as [s|s| |s m e]; simpl; try done; try (by destruct s).
  rewrite Z.compare_refl.
  assert (Pos.compare_cont Eq m m = Eq) as -> by apply Pos.compare_refl.
  by destruct s.
Qed.

(** ** Flat series *)

Lemma flat_state_add c st l :
  flat_state c st -> Forall (fun x => x = c) l -> flat_state c (foldl add_mean st l).
Proof.
  revert st. induction l as [|x l IH]; intros st Hst Hall; [done|].
  apply Forall_cons in Hall as [-> Hrest]. simpl. apply IH; [|done].
  destruct Hst as (H1 & H2 & H3). unfold add_mean, flat_state.
  destruct (feq c c) eqn:Ec; [|done]. simpl.
  destruct (Z.eq_dec (num_consecutive_same_value st) 0) as [H0|Hpos].
  - destruct (feq c (prev_value st)); repeat split; lia.
  - rewrite H3 by lia. rewrite Ec. repeat split; lia.
Qed.

Lemma flat_state_remove c st l :
  flat_state c st -> flat_state c (foldl remove_mean st l).
Proof.
  revert st. induction l as [|x l IH]; intros st Hst; [done|].
  simpl. apply IH. destruct Hst as (H1 & H2 & H3).
  unfold remove_mean, flat_state. destruct (feq x x); simpl; [|done].
  repeat split; [lia | lia | done].
Qed.

Lemma flat_state_setup c values s : flat_state c (setup values s).
Proof. unfold flat_state, setup. simpl. repeat split; lia. Qed.

Lemma slice_replicate n c a b : Forall (fun x => x = c) (slice (replicate n c) a b).
Proof.
  unfold slice. rewrite drop_replicate, take_replicate.
  apply Forall_forall. intros x Hx. by apply elem_of_replicate in Hx as [-> _].
Qed.

Lemma flat_state_row n c w i : flat_state c (row_state (replicate n c) w i).
Proof.
  induction i as [|i IH].
  - unfold row_state. cbn [seq foldl]. unfold roll_row. cbn [Nat.eqb orb].
    apply flat_state_add; [apply flat_state_setup | apply slice_replicate].
  - rewrite row_state_S. unfold roll_row.
    destruct ((S i =? 0)%nat || (window_end w (S i - 1) <=? window_start w (S i))%nat).
    + apply flat_state_add; [apply flat_state_setup | apply slice_replicate].
    + apply flat_state_add; [| apply slice_replicate]. by apply flat_state_remove.
Qed.

Lemma calc_mean_flat c minp st :
  flat_state c st -> isna (calc_mean minp st) = false -> calc_mean minp st = c.
Proof.
  intros (H1 & H2 & H3) Hdef.
  pose proof (calc_mean_defined _ _ Hdef) as [Hmin Hpos].
  unfold calc_mean.
  destruct (Z.leb_spec minp (nobs st)); [|lia].
  destruct (Z.ltb_spec 0 (nobs st)); [|lia]. simpl.
  destruct (Z.leb_spec (nobs st) (num_consecutive_same_value st)); [|lia].
  apply H3. lia.
Qed.

Lemma prep_values_replicate n c :
  prep_values (replicate n c) = replicate n (if isinf c then NaN else c).
Proof. unfold prep_values. by rewrite fmap_replicate. Qed.

(** Every defined moving average of a flat series is the flat price. *)
Lemma moving_average_flat n c w k x :
  (0 < k)%nat ->
  moving_average (replicate n c) w (- Z.of_nat k) = Ok x ->
  isna x = false ->
  x = if isinf c then NaN else c.
Proof.
  intros Hk H Hx. apply moving_average_Ok in H as (_ & _ & ->); [|done].
  rewrite prep_values_replicate in *.
  apply calc_mean_flat; [apply flat_state_row | done].
Qed.

(** ** One more bar *)

Lemma roll_row_agree values1 values2 w st i :
  take (S i) values1 = take (S i) values2 ->
  roll_row values1 w st i = roll_row values2 w st i.
Proof.
  intros Hagree.
  assert (forall a b, (b <= S i)%nat -> slice values1 a b = slice values2 a b) as Hslice.
  { intros a b Hb.
    by rewrite <- (slice_take values1 (S i)), <- (slice_take values2 (S i)), Hagree. }
  assert (forall j, (j <= i)%nat -> values1 !! j = values2 !! j) as Hlook.
  { intros j Hj.
    by rewrite <- (lookup_take_lt values1 (S i)), <- (lookup_take_lt values2 (S i)),
         Hagree by lia. }
  pose proof (window_bounds w i) as (H1 & _ & _ & _ & H5).
  assert (window_start w i <= i)%nat as H6
    by (unfold window_start; destruct (Nat.eqb_spec w 0); lia).
  unfold roll_row, setup.
  rewrite (Hslice (window_start w i) (window_end w i)) by lia.
  rewrite (Hlook (window_start w i)) by lia.
  destruct ((i =? 0)%nat || (window_end w (i - 1) <=? window_start w i)%nat) eqn:E;
    [done|].
  rewrite (Hslice (window_start w (i - 1)) (window_start w i)) by lia.
  rewrite (Hslice (window_end w (i - 1)) (window_end w i)) by lia.
  done.
Qed.

Lemma row_state_agree values1 values2 w i :
  take (S i) values1 = take (S i) values2 ->
  row_state values1 w i = row_state values2 w i.
Proof.
  induction i as [|i IH]; intros Hagree.
  - unfold row_state. cbn [seq foldl].
    assert (setup values1 0 = setup values2 0) as ->.
    { unfold setup.
      by rewrite <- (lookup_take_lt values1 1), <- (lookup_take_lt values2 1), Hagree
        by lia. }
    by apply roll_row_agree.
  - rewrite !row_state_S. rewrite IH.
    + by apply roll_row_agree.
    + apply (f_equal (take (S i))) in Hagree.
      by rewrite !take_take, !Nat.min_l in Hagree by lia.
Qed.

(** The previous average after one more bar is the current average before
    it. *)
Lemma moving_average_snoc s p w :
  moving_average (s ++ [p]) w (-2) = moving_average s w (-1).
Proof.
  destruct (moving_average s w (-1)) as [x|e] eqn:E.
  - apply (moving_average_Ok s w 1) in E as (Hw & Hlen & ->); [|lia].
    apply (moving_average_Ok (s ++ [p]) w 2); [lia|].
    rewrite length_app. cbn [length]. split; [done|]. split; [lia|].
    f_equal. replace (length s + 1 - 2)%nat with (length s - 1)%nat by lia.
    apply row_state_agree.
    unfold prep_values. rewrite fmap_app.
    replace (S (length s - 1)) with (length s) by lia.
    rewrite take_app_le by (rewrite length_fmap; lia). done.
  - unfold moving_average, rolling in *.
    destruct (Z.ltb_spec w 0); [done|]. simpl in *.
    destruct s as [|c s]; [done|].
    destruct (iloc_back_total
                (mean {| window := Z.to_nat w; obj := c :: s |}) 1) as [x Hx];
      [rewrite length_mean; simpl; lia|].
    change (- Z.of_nat 1) with (-1) in Hx. congruence.
Qed.

(** ** The shape of a call of [on_bar] *)

Lemma df_empty_false bars :
  df_empty bars = false -> exists bar, iloc (index bars) (-1) = Ok bar.
Proof.
  unfold df_empty. intros H. apply orb_false_iff in H as [H _].
  apply bool_decide_eq_false in H.
  apply (iloc_back_total (index bars) 1). lia.
Qed.

Lemma on_bar_defined self context bar_dict bar fp fc sp sc :
  guards_pass self bar_dict bar fp fc sp sc ->
  on_bar self context bar_dict = Ok (respond self context bar fp fc sp sc).
Proof.
  intros (bars & close & Hbars & Hclose & Hempty & Hbar
          & Hslow & Hfp & Hfc & Hsp & Hsc & Nfp & Nfc & Nsp & Nsc).
  destruct (proj1 (moving_average_Ok close (fast_period self) 2 _ ltac:(lia)) Hfp)
    as (Hf & Hlen & _).
  destruct (proj1 (moving_average_Ok close (slow_period self) 2 _ ltac:(lia)) Hsp)
    as (Hs & _ & _).
  unfold on_bar. rewrite Hbars. cbn [column empty mbind exn_bind].
  rewrite Hclose, Hempty.
  unfold moving_average, rolling in *.
  destruct (Z.ltb_spec (Z.of_nat (length close)) (slow_period self)); [lia|].
  destruct (Z.ltb_spec (fast_period self) 0); [lia|].
  destruct (Z.ltb_spec (slow_period self) 0); [lia|].
  simpl in *. rewrite !length_mean. simpl.
  destruct (Z.ltb_spec (Z.of_nat (length close)) 2); [lia|]. simpl.
  rewrite Hfp, Hfc, Hsp, Hsc. simpl.
  rewrite Nfp, Nfc, Nsp, Nsc. simpl. rewrite Hbar.
  unfold respond, held_quantity_of. simpl.
  repeat case_match; done.
Qed.

Lemma on_bar_cases self context bar_dict :
  on_bar self context bar_dict = Ok context
  \/ (exists bar fp fc sp sc,
        guards_pass self bar_dict bar fp fc sp sc
        /\ on_bar self context bar_dict = Ok (respond self context bar fp fc sp sc))
  \/ (exists d,
        bar_dict !! symbol self = Some (Mapping d)
        /\ is_Some (d !! "close")
        /\ on_bar self context bar_dict = Raise AttributeError).
Proof.
  cut (on_bar self context bar_dict = Ok context
       \/ (exists bar fp fc sp sc, guards_pass self bar_dict bar fp fc sp sc)
       \/ (exists d,
             bar_dict !! symbol self = Some (Mapping d)
             /\ is_Some (d !! "close")
             /\ on_bar self context bar_dict = Raise AttributeError)).
  { intros [H | [(bar & fp & fc & sp & sc & H) | H]]; [by left | | by right; right].
    right. left. exists bar, fp, fc, sp, sc. split; [done|]. by apply on_bar_defined. }
  unfold guards_pass, averages, on_bar.
  destruct (bar_dict !! symbol self) as [[bars|d]|] eqn:Hbars; [| | by left].
  2:{ cbn [column empty mbind exn_bind].
      destruct (d !! "close") as [close|] eqn:Hclose; [| by left].
      right. right. exists d. by rewrite Hclose. }
  cbn [column empty mbind exn_bind].
  destruct (columns bars !! "close") as [close|] eqn:Hclose; [| by left].
  destruct (df_empty bars) eqn:Hempty; [by left|].
  destruct (Z.ltb_spec (Z.of_nat (length close)) (slow_period self)) as [|Hslow];
    [by left|].
  unfold moving_average, rolling.
  destruct (Z.ltb_spec (fast_period self) 0) as [|Hf]; [by left|].
  destruct (Z.ltb_spec (slow_period self) 0) as [|Hs]; [by left|].
  simpl. rewrite !length_mean. simpl.
  destruct (Z.ltb_spec (Z.of_nat (length close)) 2) as [|Hlen]; [by left|].
  simpl.
  set (rf := {| window := Z.to_nat (fast_period self); obj := close |}).
  set (rs := {| window := Z.to_nat (slow_period self); obj := close |}).
  destruct (iloc_back_total (mean rf) 1) as [fc Hfc]; [rewrite length_mean; simpl; lia|].
  destruct (iloc_back_total (mean rf) 2) as [fp Hfp]; [rewrite length_mean; simpl; lia|].
  destruct (iloc_back_total (mean rs) 1) as [sc Hsc]; [rewrite length_mean; simpl; lia|].
  destruct (iloc_back_total (mean rs) 2) as [sp Hsp]; [rewrite length_mean; simpl; lia|].
  destruct (df_empty_false bars Hempty) as [bar Hbar].
  change (- Z.of_nat 1) with (-1) in *. change (- Z.of_nat 2) with (-2) in *.
  rewrite Hfc, Hfp, Hsc, Hsp. simpl.
  destruct (isna fc) eqn:Nfc; [by left|].
  destruct (isna fp) eqn:Nfp; [by left|].
  destruct (isna sc) eqn:Nsc; [by left|].
  destruct (isna sp) eqn:Nsp; [by left|].
  right. left. exists bar, fp, fc, sp, sc, bars, close. done.
Qed.

Lemma averages_dec self close :
  (exists fp fc sp sc, averages self close fp fc sp sc)
  \/ (forall fp fc sp sc, ~ averages self close fp fc sp sc).
Proof.
  unfold averages.
  destruct (Z.le_gt_cases (slow_period self) (Z.of_nat (length close))) as [Hslow|Hslow];
    [| right; intros ? ? ? ? (? & _); lia].
  assert (forall w k, { x | moving_average close w k = Ok x /\ isna x = false }
                      + { forall x, moving_average close w k = Ok x -> isna x = true })
    as Hdec.
  { intros w k. destruct (moving_average close w k) as [x|e].
    - destruct (isna x) eqn:E.
      + right. by intros ? [= <-].
      + left. by exists x.
    - right. congruence. }
  destruct (Hdec (fast_period self) (-2)) as [(fp & Hfp & Nfp)|Hn];
    [| right; intros ? ? ? ? (_ & H & _ & _ & _ & N & _); apply Hn in H; congruence].
  destruct (Hdec (fast_period self) (-1)) as [(fc & Hfc & Nfc)|Hn];
    [| right; intros ? ? ? ? (_ & _ & H & _ & _ & _ & N & _); apply Hn in H; congruence].
  destruct (Hdec (slow_period self) (-2)) as [(sp & Hsp & Nsp)|Hn];
    [| right; intros ? ? ? ? (_ & _ & _ & H & _ & _ & _ & N & _); apply Hn in H;
       congruence].
  destruct (Hdec (slow_period self) (-1)) as [(sc & Hsc & Nsc)|Hn];
    [| right; intros ? ? ? ? (_ & _ & _ & _ & H & _ & _ & _ & N); apply Hn in H;
       congruence].
  left. by exists fp, fc, sp, sc.
Qed.

Lemma guards_pass_dec self bar_dict :
  (exists bar fp fc sp sc, guards_pass self bar_dict bar fp fc sp sc)
  \/ (forall bar fp fc sp sc, ~ guards_pass self bar_dict bar fp fc sp sc).
Proof.
  unfold guards_pass.
  destruct (bar_dict !! symbol self) as [[bars|d]|] eqn:Hbars;
    [| right; intros ? ? ? ? ? (? & ? & ? & _); congruence
     | right; intros ? ? ? ? ? (? & ? & ? & _); congruence].
  destruct (columns bars !! "close") as [close|] eqn:Hclose;
    [| right; intros ? ? ? ? ? (? & ? & ? & ? & _); congruence].
  destruct (df_empty bars) eqn:Hempty;
    [right; intros ? ? ? ? ? (? & ? & ? & ? & ? & _); congruence|].
  destruct (df_empty_false bars Hempty) as [bar Hbar].
  destruct (averages_dec self close) as [(fp & fc & sp & sc & Ha) | Hfail].
  - left. exists bar, fp, fc, sp, sc, bars, close. done.
  - right. intros ? ? ? ? ? (? & ? & ? & ? & _ & _ & Ha). simplify_eq.
    by eapply Hfail.
Qed.

Lemma on_bar_abstains self context bar_dict :
  (forall bar fp fc sp sc, ~ guards_pass self bar_dict bar fp fc sp sc) ->
  on_bar self context bar_dict = Ok context
  \/ exists d,
       bar_dict !! symbol self = Some (Mapping d)
       /\ is_Some (d !! "close")
       /\ on_bar self context bar_dict = Raise AttributeError.
Proof.
  intros Hfail.
  destruct (on_bar_cases self context bar_dict)
    as [H | [(bar & fp & fc & sp & sc & Hg & _) | H]]; [by left | | by right].
  by destruct (Hfail _ _ _ _ _ Hg).
Qed.

(** On a frame, or with no entry for the symbol, a call whose guards fail
    returns the context as it was. *)
Lemma on_bar_abstains_frame self context bar_dict :
  (forall d, bar_dict !! symbol self <> Some (Mapping d)) ->
  (forall bar fp fc sp sc, ~ guards_pass self bar_dict bar fp fc sp sc) ->
  on_bar self context bar_dict = Ok context.
Proof.
  intros Hframe Hfail.
  destruct (on_bar_abstains self context bar_dict Hfail) as [H | (d & Hd & _)];
    [done|]. by destruct (Hframe d).
Qed.

Lemma orders_respond self context bar fp fc sp sc :
  orders (respond self context bar fp fc sp sc)
  = orders context
    ++ decision_rule self (held_quantity_of context (symbol self)) fp fc sp sc.
Proof.
  unfold respond, decision_rule.
  repeat case_match; simpl; by rewrite ?app_nil_r.
Qed.

Lemma positions_respond self context bar fp fc sp sc :
  positions (respond self context bar fp fc sp sc) = positions context.
Proof. unfold respond. by repeat case_match. Qed.

Lemma respond_cases self context bar fp fc sp sc :
  respond self context bar fp fc sp sc = context
  \/ exists a,
       respond self context bar fp fc sp sc
       = submit (log context (LogSignal bar a (symbol self) fc sc))
           {| action := a; instrument := symbol self; shares := trade_size self |}.
Proof.
  unfold respond, buy, sell.
  repeat case_match; eauto.
Qed.

Lemma get_position_respond self context bar fp fc sp sc sym :
  get_position (respond self context bar fp fc sp sc) sym = get_position context sym.
Proof. unfold get_position. by rewrite positions_respond. Qed.

Lemma held_quantity_respond self context bar fp fc sp sc sym :
  held_quantity_of (respond self context bar fp fc sp sc) sym
  = held_quantity_of context sym.
Proof. unfold held_quantity_of. by rewrite get_position_respond. Qed.

(** Without a strict inequality between the current averages neither
    branch of the rule fires. *)
Lemma decision_rule_level self q (fp fc sp : float) :
  decision_rule self q fp fc sp fc = [].
Proof.
  unfold decision_rule, fgt. rewrite flt_irrefl. by rewrite !andb_false_r.
Qed.

Lemma respond_level self context bar (fp fc sp : float) :
  respond self context bar fp fc sp fc = context.
Proof.
  unfold respond, fgt. rewrite flt_irrefl. by rewrite !andb_false_r.
Qed.

Lemma SFcompare_antisym x y :
  SpecFloat.SFcompare y x = option_map CompOpp (SpecFloat.SFcompare x y).
Proof.
  destruct x as [s|s| |s m e], y as [s'|s'| |s' m' e']; simpl; try done;
    try (by destruct s); try (by destruct s'); try (by destruct s, s').
  destruct s, s'; simpl; try done; f_equal.
  - rewrite (Z.compare_antisym e' e).
    destruct (e' ?= e); simpl; try done.
    by rewrite (Pos.compare_cont_antisym m m' Eq).
  - rewrite (Z.compare_antisym e' e).
    destruct (e' ?= e); simpl; try done.
    by rewrite (Pos.compare_cont_antisym m m' Eq).
Qed.

Lemma flt_asym x y : flt x y = true -> flt y x = false.
Proof.
  unfold flt, SpecFloat.SFltb. rewrite (SFcompare_antisym x y).
  by destruct (SpecFloat.SFcompare x y) as [[]|].
Qed.

Lemma decision_rule_sound self q fp fc sp sc d :
  In d (decision_rule self q fp fc sp sc) ->
  match action d with
  | BUY => fle fp sp = true /\ fgt fc sc = true /\ q <= 0
  | SELL => fge fp sp = true /\ flt fc sc = true /\ 0 < q
  end.
Proof.
  unfold decision_rule. intros Hin.
  destruct (fle fp sp) eqn:E1, (fgt fc sc) eqn:E2; simpl in Hin.
  1:{ destruct (Z.leb_spec q 0); [|done]. by destruct Hin as [<- | []]. }
  all: destruct (fge fp sp) eqn:E3, (flt fc sc) eqn:E4; simpl in Hin; try done;
    destruct (Z.ltb_spec 0 q); try done; by destruct Hin as [<- | []].
Qed.

Lemma decision_rule_sign self q1 q2 fp fc sp sc :
  (0 < q1 <-> 0 < q2) ->
  decision_rule self q1 fp fc sp sc = decision_rule self q2 fp fc sp sc.
Proof.
  intros Hsign. unfold decision_rule.
  destruct (Z.leb_spec q1 0), (Z.leb_spec q2 0), (Z.ltb_spec 0 q1), (Z.ltb_spec 0 q2);
    try lia; done.
Qed.

Lemma on_bar_orders self context bar_dict :
  (exists bar fp fc sp sc,
     guards_pass self bar_dict bar fp fc sp sc
     /\ on_bar self context bar_dict = Ok (respond self context bar fp fc sp sc))
  \/ ((forall bar fp fc sp sc, ~ guards_pass self bar_dict bar fp fc sp sc)
      /\ (on_bar self context bar_dict = Ok context
          \/ on_bar self context bar_dict = Raise AttributeError)).
Proof.
  destruct (guards_pass_dec self bar_dict) as [(bar & fp & fc & sp & sc & Hg) | Hfail].
  - left. exists bar, fp, fc, sp, sc. split; [done | by apply on_bar_defined].
  - right. split; [done|].
    destruct (on_bar_abstains self context bar_dict Hfail) as [H | (d & _ & _ & H)];
      [by left | by right].
Qed.

(** ** From [on_bar] to [evaluate] *)

Lemma held_quantity self q :
  held_quantity_of (host_context self q) (symbol self) = q.
Proof.
  unfold held_quantity_of, get_position, host_context. simpl.
  by rewrite lookup_singleton_eq.
Qed.

Lemma df_empty_host_frame l : df_empty (host_frame l) = bool_decide (l = []).
Proof.
  unfold df_empty, host_frame. simpl.
  rewrite length_fmap, length_seq.
  rewrite (bool_decide_ext _ (l = [])) by apply length_zero_iff_nil.
  rewrite (bool_decide_eq_false_2 (_ = ∅)); [by rewrite orb_false_r|].
  apply insert_non_empty.
Qed.

Lemma guards_pass_host self h bar fp fc sp sc :
  guards_pass self (host_bars self h) bar fp fc sp sc ->
  exists l, h = Some l /\ averages self l fp fc sp sc.
Proof.
  intros (bars & close & Hbars & Hclose & _ & _ & H).
  destruct h as [l|]; simpl in Hbars; [| by rewrite lookup_empty in Hbars].
  rewrite lookup_singleton_eq in Hbars. injection Hbars as <-.
  simpl in Hclose. rewrite lookup_singleton_eq in Hclose. injection Hclose as <-.
  by exists l.
Qed.

Lemma host_guards_pass self l fp fc sp sc :
  averages self l fp fc sp sc ->
  exists bar, guards_pass self (host_bars self (Some l)) bar fp fc sp sc.
Proof.
  intros Ha. pose proof Ha as (_ & Hfp & _).
  destruct (proj1 (moving_average_Ok l (fast_period self) 2 _ ltac:(lia)) Hfp)
    as (_ & Hlen & _).
  assert (df_empty (host_frame l) = false) as Hempty.
  { rewrite df_empty_host_frame. apply bool_decide_eq_false.
    intros ->. simpl in Hlen. lia. }
  destruct (df_empty_false _ Hempty) as [bar Hbar].
  exists bar, (host_frame l), l. simpl.
  rewrite !lookup_singleton_eq. done.
Qed.

Lemma host_bars_frame self h d : host_bars self h !! symbol self <> Some (Mapping d).
Proof.
  destruct h as [l|]; simpl; [by rewrite lookup_singleton_eq | by rewrite lookup_empty].
Qed.

Lemma evaluate_defined self l q fp fc sp sc :
  averages self l fp fc sp sc ->
  evaluate self (Some l) q = Ok (decision_rule self q fp fc sp sc).
Proof.
  intros Ha.
  destruct (host_guards_pass self l fp fc sp sc Ha) as [bar Hg].
  unfold evaluate. rewrite (on_bar_defined _ _ _ _ _ _ _ _ Hg). simpl.
  by rewrite orders_respond, held_quantity.
Qed.

Lemma evaluate_cases self h q :
  evaluate self h q = Ok [] \/
  exists l fp fc sp sc,
    h = Some l /\
    averages self l fp fc sp sc /\
    evaluate self h q = Ok (decision_rule self q fp fc sp sc).
Proof.
  unfold evaluate.
  destruct (on_bar_cases self (host_context self q) (host_bars self h))
    as [-> | [(bar & fp & fc & sp & sc & Hg & ->) | (d & Hd & _)]];
    [by left | | by destruct (host_bars_frame self h d)].
  right. apply guards_pass_host in Hg as (l & -> & H).
  exists l, fp, fc, sp, sc. split; [done|]. split; [done|].
  simpl. by rewrite orders_respond, held_quantity.
Qed.

Lemma evaluate_abstains self l q :
  (forall fp fc sp sc, ~ averages self l fp fc sp sc) ->
  evaluate self (Some l) q = Ok [].
Proof.
  intros Hfail.
  destruct (evaluate_cases self (Some l) q)
    as [H | (l' & fp & fc & sp & sc & [= <-] & Ha & _)]; [done|].
  by destruct (Hfail _ _ _ _ Ha).
Qed.


Lemma evaluate_short self l q :
  Z.of_nat (length l) < slow_period self -> evaluate self (Some l) q = Ok [].
Proof.
  intros Hlt. apply evaluate_abstains. intros fp fc sp sc (Hslow & _). lia.
Qed.

Lemma evaluate_missing self q : evaluate self None q = Ok [].
Proof.
  destruct (evaluate_cases self None q) as [H | (l & ? & ? & ? & ? & [=] & _)]; done.
Qed.

Lemma evaluate_no_rows self q : evaluate self (Some []) q = Ok [].
Proof.
  apply evaluate_abstains. intros fp fc sp sc (_ & H & _).
  apply (moving_average_Ok [] _ 2) in H as (_ & H & _); [simpl in H|]; lia.
Qed.

Lemma evaluate_exact_length self l q :
  Z.of_nat (length l) = slow_period self -> evaluate self (Some l) q = Ok [].
Proof.
  intros Hlen. apply evaluate_abstains.
  intros fp fc sp sc (_ & _ & _ & Hsp & _ & _ & _ & Nsp & _).
  pose proof (moving_average_prev_full _ _ _ Hsp Nsp). lia.
Qed.

(** ** The decision rule *)

(** C1. When every guard passes and the fast average crosses above the slow
    one ([fast_prev <= slow_prev] and [fast_curr > slow_curr], on the
    averages the code computes), [evaluate] returns
    [BUY(symbol, trade_size)] if [current_quantity <= 0] and no decision if
    [current_quantity > 0]. *)
Theorem crossover_up_buys_unless_long self price_history current_quantity
    (fast_prev fast_curr slow_prev slow_curr : float) :
  slow_period self <= Z.of_nat (length price_history) ->
  moving_average price_history (fast_period self) (-2) = Ok fast_prev ->
  moving_average price_history (fast_period self) (-1) = Ok fast_curr ->
  moving_average price_history (slow_period self) (-2) = Ok slow_prev ->
  moving_average price_history (slow_period self) (-1) = Ok slow_curr ->
  isna fast_prev = false -> isna fast_curr = false ->
  isna slow_prev = false -> isna slow_curr = false ->
  fle fast_prev slow_prev = true ->
  fgt fast_curr slow_curr = true ->
  evaluate self (Some price_history) current_quantity
  = Ok (if current_quantity <=? 0
        then [ {| action := BUY; instrument := symbol self; shares := trade_size self |} ]
        else []).
Proof.
  intros Hlen Hfp Hfc Hsp Hsc Nfp Nfc Nsp Nsc Hprev Hcurr.
  rewrite (evaluate_defined self price_history current_quantity
             fast_prev fast_curr slow_prev slow_curr) by done.
  unfold decision_rule. by rewrite Hprev, Hcurr.
Qed.

Lemma crossover_up_buys_unless_long_witness :
  evaluate (detector_2_3 "AAPL" 100) (Some (take 4 rising)) 0
  = Ok [ {| action := BUY; instrument := "AAPL"; shares := 100 |} ]
  /\ evaluate (detector_2_3 "AAPL" 100) (Some (take 4 rising)) 100 = Ok [].
Proof.
  split.
  - apply (crossover_up_buys_unless_long (detector_2_3 "AAPL" 100) (take 4 rising) 0
             (price 10) (price 11) (price 10) (decimal 32 3));
      solve [ reflexivity | vm_compute; discriminate ].
  - apply (crossover_up_buys_unless_long (detector_2_3 "AAPL" 100) (take 4 rising) 100
             (price 10) (price 11) (price 10) (decimal 32 3));
      solve [ reflexivity | vm_compute; discriminate ].
Defined.

(** C2. When every guard passes and the fast average crosses below the slow
    one ([fast_prev >= slow_prev] and [fast_curr < slow_curr], on the
    averages the code computes), [evaluate] returns
    [SELL(symbol, trade_size)] if [current_quantity > 0] and no decision if
    [current_quantity <= 0]: it never opens a short position. *)
Theorem crossover_down_sells_only_if_long self price_history current_quantity
    (fast_prev fast_curr slow_prev slow_curr : float) :
  slow_period self <= Z.of_nat (length price_history) ->
  moving_average price_history (fast_period self) (-2) = Ok fast_prev ->
  moving_average price_history (fast_period self) (-1) = Ok fast_curr ->
  moving_average price_history (slow_period self) (-2) = Ok slow_prev ->
  moving_average price_history (slow_period self) (-1) = Ok slow_curr ->
  isna fast_prev = false -> isna fast_curr = false ->
  isna slow_prev = false -> isna slow_curr = false ->
  fge fast_prev slow_prev = true ->
  flt fast_curr slow_curr = true ->
  evaluate self (Some price_history) current_quantity
  = Ok (if 0 <? current_quantity
        then [ {| action := SELL; instrument := symbol self; shares := trade_size self |} ]
        else []).
Proof.
  intros Hlen Hfp Hfc Hsp Hsc Nfp Nfc Nsp Nsc Hprev Hcurr.
  rewrite (evaluate_defined self price_history current_quantity
             fast_prev fast_curr slow_prev slow_curr) by done.
  unfold decision_rule, fgt.
  rewrite (flt_asym _ _ Hcurr), andb_false_r. by rewrite Hprev, Hcurr.
Qed.

Lemma crossover_down_sells_only_if_long_witness :
  evaluate (detector_2_3 "AAPL" 100) (Some falling) 100
  = Ok [ {| action := SELL; instrument := "AAPL"; shares := 100 |} ]
  /\ evaluate (detector_2_3 "AAPL" 100) (Some falling) 0 = Ok [].
Proof.
  split.
  - apply (crossover_down_sells_only_if_long (detector_2_3 "AAPL" 100) falling 100
             (price 10) (decimal 15 2) (price 10) (decimal 25 3));
      solve [ reflexivity | vm_compute; discriminate ].
  - apply (crossover_down_sells_only_if_long (detector_2_3 "AAPL" 100) falling 0
             (price 10) (decimal 15 2) (price 10) (decimal 25 3));
      solve [ reflexivity | vm_compute; discriminate ].
Defined.

(** ** Abstention *)

(** C3. A history shorter than [slow_period], an empty history and a missing
    history all give no decision, and no error. *)
Theorem insufficient_history_abstains self price_history current_quantity :
  match price_history with
  | None => True
  | Some l => l = [] \/ Z.of_nat (length l) < slow_period self
  end ->
  evaluate self price_history current_quantity = Ok [].
Proof.
  destruct price_history as [l|]; [| intros _; apply evaluate_missing].
  intros [-> | Hshort]; [apply evaluate_no_rows | by apply evaluate_short].
Qed.

Lemma insufficient_history_abstains_witness :
  evaluate (detector_2_3 "AAPL" 100) (Some (take 2 rising)) 0 = Ok []
  /\ evaluate (detector_2_3 "AAPL" 100) (Some []) 0 = Ok []
  /\ evaluate (detector_2_3 "AAPL" 100) None 0 = Ok [].
Proof.
  split; [| split].
  - apply (insufficient_history_abstains (detector_2_3 "AAPL" 100) (Some (take 2 rising)) 0).
    right. vm_compute. reflexivity.
  - apply (insufficient_history_abstains (detector_2_3 "AAPL" 100) (Some []) 0).
    left. reflexivity.
  - apply (insufficient_history_abstains (detector_2_3 "AAPL" 100) None 0).
    exact I.
Defined.

(** C4. With [fast_period <= slow_period] and exactly [slow_period] prices
    (the previous slow window is not full), and more generally whenever one
    of [fast_prev], [fast_curr], [slow_prev], [slow_curr] is not-a-number,
    [evaluate] returns no decision. *)
Theorem undefined_average_abstains self price_history current_quantity :
  (fast_period self <= slow_period self
   /\ Z.of_nat (length price_history) = slow_period self)
  \/ moving_average price_history (fast_period self) (-2) = Ok NaN
  \/ moving_average price_history (fast_period self) (-1) = Ok NaN
  \/ moving_average price_history (slow_period self) (-2) = Ok NaN
  \/ moving_average price_history (slow_period self) (-1) = Ok NaN ->
  evaluate self (Some price_history) current_quantity = Ok [].
Proof.
  intros [[_ Hlen] | Hnan]; [by apply evaluate_exact_length|].
  apply evaluate_abstains.
  intros fp fc sp sc (_ & Hfp & Hfc & Hsp & Hsc & Nfp & Nfc & Nsp & Nsc).
  destruct Hnan as [H | [H | [H | H]]];
    [ rewrite H in Hfp; injection Hfp as <-
    | rewrite H in Hfc; injection Hfc as <-
    | rewrite H in Hsp; injection Hsp as <-
    | rewrite H in Hsc; injection Hsc as <- ]; done.
Qed.

Lemma undefined_average_abstains_witness :
  evaluate (detector_2_3 "AAPL" 100) (Some (take 3 rising)) 0 = Ok []
  /\ evaluate (detector_2_3 "AAPL" 100) (Some [price 10; price 10; NaN; price 12]) 0 = Ok [].
Proof.
  split.
  - apply (undefined_average_abstains (detector_2_3 "AAPL" 100) (take 3 rising) 0).
    left. split; [vm_compute; discriminate | reflexivity].
  - apply (undefined_average_abstains (detector_2_3 "AAPL" 100)
             [price 10; price 10; NaN; price 12] 0).
    right. left. reflexivity.
Defined.

(** ** How much history decides *)

Lemma averages_transfer self h1 h2 fp fc sp sc :
  slow_period self <= Z.of_nat (length h2) ->
  moving_average h1 (fast_period self) (-2) = moving_average h2 (fast_period self) (-2) ->
  moving_average h1 (fast_period self) (-1) = moving_average h2 (fast_period self) (-1) ->
  moving_average h1 (slow_period self) (-2) = moving_average h2 (slow_period self) (-2) ->
  moving_average h1 (slow_period self) (-1) = moving_average h2 (slow_period self) (-1) ->
  averages self h1 fp fc sp sc -> averages self h2 fp fc sp sc.
Proof.
  intros Hlen E1 E2 E3 E4 (_ & Hfp & Hfc & Hsp & Hsc & Hna).
  unfold averages. rewrite <- E1, <- E2, <- E3, <- E4. done.
Qed.

(** Rounding decides crossings that exact means would decide otherwise:
    on 1.1, 0.8, 1.4, 3.6 the exact previous averages are both 1.1 and the
    averages cross, but the slow running sum gives 1.0999999999999999, below
    the fast 1.1, and no order is placed; on 1.8, 0.8, 0.7, 0.9 the exact
    current averages are both 0.8, but the slow one comes out one unit in
    the last place lower and a BUY is placed. *)
Lemma rounding_hides_a_crossing :
  evaluate (detector_2_3 "AAPL" 100)
    (Some ((fun z => decimal z 10) <$> [11; 8; 14; 36])) 0 = Ok [].
Proof. vm_compute. reflexivity. Qed.

Lemma rounding_makes_a_crossing :
  evaluate (detector_2_3 "AAPL" 100)
    (Some ((fun z => decimal z 10) <$> [18; 8; 7; 9])) 0
  = Ok [ {| action := BUY; instrument := "AAPL"; shares := 100 |} ].
Proof. vm_compute. reflexivity. Qed.

(** C5, as stated: histories that agree on their last
    [max(fast_period, slow_period)] prices need not get the same decision. *)
Lemma last_max_prices_do_not_decide :
  ~ (forall self (h1 h2 : Series) q,
       lastn (Z.to_nat (Z.max (fast_period self) (slow_period self))) h1
       = lastn (Z.to_nat (Z.max (fast_period self) (slow_period self))) h2 ->
       slow_period self <= Z.of_nat (length h1) ->
       slow_period self <= Z.of_nat (length h2) ->
       evaluate self (Some h1) q = evaluate self (Some h2) q).
Proof.
  intros H.
  specialize (H (detector_2_3 "AAPL" 100)
                (price <$> [10; 10; 10; 12]) (price <$> [7; 10; 10; 12]) 0).
  assert (evaluate (detector_2_3 "AAPL" 100) (Some (price <$> [10; 10; 10; 12])) 0
          = Ok [ {| action := BUY; instrument := "AAPL"; shares := 100 |} ]) as E1
    by (vm_compute; reflexivity).
  assert (evaluate (detector_2_3 "AAPL" 100) (Some (price <$> [7; 10; 10; 12])) 0
          = Ok []) as E2
    by (vm_compute; reflexivity).
  rewrite E1, E2 in H.
  discriminate H; [reflexivity | vm_compute; discriminate ..].
Qed.

(** One more price of agreement is not enough either: the running sum is
    carried from the first row, so a price before the windows changes the
    rounding of the means.  With windows 2 and 3 and a held quantity of 1,
    the prices 4.6, 4.3, 4.9, 1.7 give no decision, and the same four
    prices after 2.7 give a SELL. *)
Lemma last_max_plus_one_prices_do_not_decide :
  ~ (forall self (h1 h2 : Series) q,
       lastn (Z.to_nat (Z.max (fast_period self) (slow_period self)) + 1) h1
       = lastn (Z.to_nat (Z.max (fast_period self) (slow_period self)) + 1) h2 ->
       slow_period self <= Z.of_nat (length h1) ->
       slow_period self <= Z.of_nat (length h2) ->
       evaluate self (Some h1) q = evaluate self (Some h2) q).
Proof.
  intros H.
  specialize (H (detector_2_3 "AAPL" 100)
                ((fun z => decimal z 10) <$> [27; 46; 43; 49; 17])
                ((fun z => decimal z 10) <$> [46; 43; 49; 17]) 1).
  assert (evaluate (detector_2_3 "AAPL" 100)
            (Some ((fun z => decimal z 10) <$> [27; 46; 43; 49; 17])) 1
          = Ok [ {| action := SELL; instrument := "AAPL"; shares := 100 |} ]) as E1
    by (vm_compute; reflexivity).
  assert (evaluate (detector_2_3 "AAPL" 100)
            (Some ((fun z => decimal z 10) <$> [46; 43; 49; 17])) 1
          = Ok []) as E2
    by (vm_compute; reflexivity).
  rewrite E1, E2 in H.
  discriminate H; [vm_compute; reflexivity | vm_compute; discriminate ..].
Qed.

Lemma evaluate_warm_up self l q :
  Z.of_nat (length l) <= Z.max (fast_period self) (slow_period self) ->
  evaluate self (Some l) q = Ok [].
Proof.
  intros Hlen. apply evaluate_abstains.
  intros fp fc sp sc (_ & Hfp & _ & Hsp & _ & Nfp & _ & Nsp & _).
  pose proof (moving_average_prev_full _ _ _ Hfp Nfp).
  pose proof (moving_average_prev_full _ _ _ Hsp Nsp). lia.
Qed.

(** C5, amended: the detector needs more than
    [N = max(fast_period, slow_period)] prices, and the decision depends on
    the price history only through the previous and the current value of
    the fast and of the slow rolling mean.  A history of at most [N] prices
    gets no decision; two histories, both at least [slow_period] long, on
    which the four values agree get the same result. *)
Theorem decision_depends_on_four_averages self (h1 h2 : Series) current_quantity :
  (Z.of_nat (length h1) <= Z.max (fast_period self) (slow_period self) ->
   evaluate self (Some h1) current_quantity = Ok [])
  /\ (slow_period self <= Z.of_nat (length h1) ->
      slow_period self <= Z.of_nat (length h2) ->
      moving_average h1 (fast_period self) (-2) = moving_average h2 (fast_period self) (-2) ->
      moving_average h1 (fast_period self) (-1) = moving_average h2 (fast_period self) (-1) ->
      moving_average h1 (slow_period self) (-2) = moving_average h2 (slow_period self) (-2) ->
      moving_average h1 (slow_period self) (-1) = moving_average h2 (slow_period self) (-1) ->
      evaluate self (Some h1) current_quantity = evaluate self (Some h2) current_quantity).
Proof.
  split; [apply evaluate_warm_up|].
  intros L1 L2 E1 E2 E3 E4.
  destruct (averages_dec self h1) as [(fp & fc & sp & sc & Ha) | Hfail].
  - rewrite (evaluate_defined _ _ _ _ _ _ _ Ha).
    symmetry. apply evaluate_defined. by eapply averages_transfer.
  - rewrite !evaluate_abstains; [done | | done].
    intros fp fc sp sc Ha. apply (Hfail fp fc sp sc).
    by eapply (averages_transfer self h2 h1).
Qed.

Lemma decision_depends_on_four_averages_witness :
  evaluate (detector_2_3 "AAPL" 100) (Some (take 3 rising)) 0 = Ok []
  /\ evaluate (detector_2_3 "AAPL" 100) (Some (price <$> [3; 8; 10; 10; 10; 12])) 0
     = evaluate (detector_2_3 "AAPL" 100) (Some (price <$> [10; 10; 10; 12])) 0.
Proof.
  split.
  - apply (proj1 (decision_depends_on_four_averages (detector_2_3 "AAPL" 100)
                    (take 3 rising) (take 3 rising) 0)).
    vm_compute. discriminate.
  - apply (proj2 (decision_depends_on_four_averages (detector_2_3 "AAPL" 100)
                    (price <$> [3; 8; 10; 10; 10; 12]) (price <$> [10; 10; 10; 12]) 0));
      solve [ vm_compute; reflexivity | vm_compute; discriminate ].
Defined.

(** ** Concrete scenario *)

(** C6. With windows 2 and 3 and a flat position, evaluating the successive
    prefixes of [10, 10, 10, 12, 14] gives exactly one BUY, at the prefix
    [10, 10, 10, 12]; every other prefix gives no decision. *)
Theorem rising_prefixes_buy_once sym size :
  (fun n => evaluate (detector_2_3 sym size) (Some (take n rising)) 0) <$> seq 0 6
  = [ Ok []; Ok []; Ok []; Ok [];
      Ok [ {| action := BUY; instrument := sym; shares := size |} ];
      Ok [] ].
Proof.
  change (seq 0 6) with [0; 1; 2; 3; 4; 5]%nat.
  rewrite !fmap_cons, fmap_nil.
  rewrite (evaluate_short _ (take 0 rising)) by (vm_compute; reflexivity).
  rewrite (evaluate_short _ (take 1 rising)) by (vm_compute; reflexivity).
  rewrite (evaluate_short _ (take 2 rising)) by (vm_compute; reflexivity).
  rewrite (evaluate_exact_length _ (take 3 rising)) by reflexivity.
  rewrite (evaluate_defined _ (take 4 rising) 0
             (price 10) (price 11) (price 10) (decimal 32 3))
    by (repeat split; solve [ reflexivity | vm_compute; discriminate ]).
  rewrite (evaluate_defined _ (take 5 rising) 0
             (price 11) (price 13) (decimal 32 3) (price 12))
    by (repeat split; solve [ reflexivity | vm_compute; discriminate ]).
  reflexivity.
Qed.

(** ** Flat series *)

(** C7. On a flat price series both averages are equal wherever they are
    defined, so no strict crossing exists: [evaluate] returns no decision for
    every constant history, every pair of windows and every position. *)
Theorem flat_series_abstains self (c : float) (n : nat) current_quantity :
  evaluate self (Some (replicate n c)) current_quantity = Ok [].
Proof.
  destruct (evaluate_cases self (Some (replicate n c)) current_quantity)
    as [H | (l & fp & fc & sp & sc & [= <-]
             & (_ & _ & Hfc & _ & Hsc & _ & Nfc & _ & Nsc) & ->)];
    [done|].
  apply (moving_average_flat n c _ 1) in Hfc; [|lia|done].
  apply (moving_average_flat n c _ 1) in Hsc; [|lia|done].
  subst fc sc. by rewrite decision_rule_level.
Qed.

(** ** Statelessness *)

(** C8. [evaluate] is deterministic and keeps no state: whatever orders and
    log lines the host context already holds, a call of [on_bar] hands over
    exactly the decisions of [evaluate], and a second call with the same
    bars and position, made on the context the first call left behind, hands
    over the same decisions again. *)
Theorem evaluate_is_replayable self price_history current_quantity context :
  get_position context (symbol self) = Some {| quantity := current_quantity |} ->
  exists decisions context1 context2,
    evaluate self price_history current_quantity = Ok decisions
    /\ on_bar self context (host_bars self price_history) = Ok context1
    /\ on_bar self context1 (host_bars self price_history) = Ok context2
    /\ orders context1 = orders context ++ decisions
    /\ orders context2 = orders context1 ++ decisions.
Proof.
  intros Hpos. set (bar_dict := host_bars self price_history).
  assert (held_quantity_of context (symbol self) = current_quantity) as Hq
    by (unfold held_quantity_of; by rewrite Hpos).
  destruct (guards_pass_dec self bar_dict) as [(bar & fp & fc & sp & sc & Hg) | Hfail].
  - exists (decision_rule self current_quantity fp fc sp sc),
      (respond self context bar fp fc sp sc),
      (respond self (respond self context bar fp fc sp sc) bar fp fc sp sc).
    split; [| split; [by apply on_bar_defined | split; [by apply on_bar_defined | split]]].
    + unfold evaluate. fold bar_dict. rewrite (on_bar_defined _ _ _ _ _ _ _ _ Hg).
      simpl. by rewrite orders_respond, held_quantity.
    + by rewrite orders_respond, Hq.
    + by rewrite orders_respond, held_quantity_respond, Hq.
  - assert (forall c, on_bar self c bar_dict = Ok c) as Hsame.
    { intros c. apply on_bar_abstains_frame; [|done].
      intros d. apply host_bars_frame. }
    exists [], context, context. unfold evaluate. fold bar_dict.
    rewrite !Hsame, app_nil_r. done.
Qed.

Lemma evaluate_is_replayable_witness :
  exists decisions context1 context2,
    evaluate (detector_2_3 "AAPL" 100) (Some (take 4 rising)) 0 = Ok decisions
    /\ on_bar (detector_2_3 "AAPL" 100) (host_context (detector_2_3 "AAPL" 100) 0)
         (host_bars (detector_2_3 "AAPL" 100) (Some (take 4 rising))) = Ok context1
    /\ on_bar (detector_2_3 "AAPL" 100) context1
         (host_bars (detector_2_3 "AAPL" 100) (Some (take 4 rising))) = Ok context2
    /\ orders context1 = orders (host_context (detector_2_3 "AAPL" 100) 0) ++ decisions
    /\ orders context2 = orders context1 ++ decisions.
Proof.
  apply (evaluate_is_replayable (detector_2_3 "AAPL" 100) (Some (take 4 rising)) 0
           (host_context (detector_2_3 "AAPL" 100) 0)).
  vm_compute. reflexivity.
Defined.

(** ** Faults *)




(** ** Size of the decisions *)

(** C10. Every decision [evaluate] emits is for the configured symbol and
    for exactly [trade_size] shares, whatever [current_quantity] is.  A SELL
    therefore leaves the position flat only when [current_quantity] equals
    [trade_size]. *)
Theorem decisions_carry_trade_size self price_history current_quantity decisions d :
  evaluate self price_history current_quantity = Ok decisions ->
  In d decisions ->
  instrument d = symbol self
  /\ shares d = trade_size self
  /\ (action d = SELL ->
      (position_after current_quantity d = 0 <-> current_quantity = trade_size self)).
Proof.
  intros Heval Hin.
  assert (instrument d = symbol self /\ shares d = trade_size self) as [Hsym Hsize].
  { destruct (evaluate_cases self price_history current_quantity)
      as [H | (l & fp & fc & sp & sc & _ & _ & H)];
      rewrite H in Heval; injection Heval as <-; [done|].
    unfold decision_rule in Hin.
    repeat case_match; simpl in Hin; try done;
      destruct Hin as [<- | []]; done. }
  split; [done | split; [done|]].
  intros Hsell. unfold position_after. rewrite Hsell, Hsize. lia.
Qed.

Lemma decisions_carry_trade_size_witness :
  let d := {| action := SELL; instrument := "AAPL"; shares := 100 |} in
  instrument d = symbol configured
  /\ shares d = trade_size configured
  /\ (action d = SELL ->
      (position_after 250 d = 0 <-> 250 = trade_size configured)).
Proof.
  intros d.
  apply (decisions_carry_trade_size configured
           (Some (replicate 30 (price 10) ++ [price 5])) 250 [d] d);
    [vm_compute; reflexivity | left; reflexivity].
Defined.

(** * Further properties of [on_bar] and [initialize] *)

(** ** Nothing but appended lines and orders *)

(** X2. A call of [on_bar] never changes the subscribed symbols or the
    positions of the context, and it keeps every earlier log line and order:
    it only appends, as many log lines as orders, and at most one order. *)
Theorem on_bar_only_appends self context bar_dict context' :
  on_bar self context bar_dict = Ok context' ->
  symbols context' = symbols context
  /\ positions context' = positions context
  /\ exists lines decisions,
       log_lines context' = log_lines context ++ lines
       /\ orders context' = orders context ++ decisions
       /\ length lines = length decisions
       /\ (length decisions <= 1)%nat.
Proof.
  intros Hrun.
  destruct (on_bar_cases self context bar_dict)
    as [H | [(bar & fp & fc & sp & sc & _ & H) | (d & _ & _ & H)]];
    rewrite H in Hrun; [| | done]; injection Hrun as <-.
  - repeat (split; [done|]). exists [], []. rewrite !app_nil_r. repeat split; simpl; lia.
  - destruct (respond_cases self context bar fp fc sp sc) as [-> | [a ->]].
    + repeat (split; [done|]). exists [], []. rewrite !app_nil_r.
      repeat split; simpl; lia.
    + repeat (split; [done|]). simpl. do 2 eexists. repeat split; simpl; lia.
Qed.

Lemma on_bar_only_appends_witness :
  let self := detector_2_3 "AAPL" 100 in
  let context := host_context self 0 in
  let context' :=
    submit (log context (LogSignal 3 BUY "AAPL" (price 11) (decimal 32 3)))
      {| action := BUY; instrument := "AAPL"; shares := 100 |} in
  symbols context' = symbols context
  /\ positions context' = positions context
  /\ exists lines decisions,
       log_lines context' = log_lines context ++ lines
       /\ orders context' = orders context ++ decisions
       /\ length lines = length decisions
       /\ (length decisions <= 1)%nat.
Proof.
  intros self context context'.
  apply (on_bar_only_appends self context (host_bars self (Some (take 4 rising))) context').
  vm_compute. reflexivity.
Defined.

(** X3. When [on_bar] places an order it is for [trade_size] shares of the
    configured symbol, and it comes with exactly one log line that carries
    the same action, the last entry of the frame's index and the current
    fast and slow averages of the [close] column.  Otherwise the context is
    returned as it was. *)
Theorem on_bar_order_is_logged self context bar_dict context' :
  on_bar self context bar_dict = Ok context' ->
  context' = context
  \/ exists bars close bar a fast_curr slow_curr,
       bar_dict !! symbol self = Some (Frame bars)
       /\ columns bars !! "close" = Some close
       /\ iloc (index bars) (-1) = Ok bar
       /\ moving_average close (fast_period self) (-1) = Ok fast_curr
       /\ moving_average close (slow_period self) (-1) = Ok slow_curr
       /\ log_lines context'
          = log_lines context ++ [LogSignal bar a (symbol self) fast_curr slow_curr]
       /\ orders context'
          = orders context
            ++ [ {| action := a; instrument := symbol self; shares := trade_size self |} ].
Proof.
  intros Hrun.
  destruct (on_bar_cases self context bar_dict)
    as [H | [(bar & fp & fc & sp & sc & Hg & H) | (d & _ & _ & H)]];
    rewrite H in Hrun; [| | done]; injection Hrun as <-; [by left|].
  destruct (respond_cases self context bar fp fc sp sc) as [-> | [a ->]]; [by left|].
  right. destruct Hg as (bars & close & ? & ? & _ & ? & _ & _ & ? & _ & ? & _).
  exists bars, close, bar, a, fc, sc. done.
Qed.

Lemma on_bar_order_is_logged_witness :
  let self := detector_2_3 "AAPL" 100 in
  let context := host_context self 250 in
  let context' :=
    submit (log context (LogSignal 3 SELL "AAPL" (decimal 15 2) (decimal 25 3)))
      {| action := SELL; instrument := "AAPL"; shares := 100 |} in
  context' = context
  \/ exists bars close bar a fast_curr slow_curr,
       host_bars self (Some falling) !! symbol self = Some (Frame bars)
       /\ columns bars !! "close" = Some close
       /\ iloc (index bars) (-1) = Ok bar
       /\ moving_average close (fast_period self) (-1) = Ok fast_curr
       /\ moving_average close (slow_period self) (-1) = Ok slow_curr
       /\ log_lines context'
          = log_lines context ++ [LogSignal bar a (symbol self) fast_curr slow_curr]
       /\ orders context'
          = orders context
            ++ [ {| action := a; instrument := symbol self; shares := trade_size self |} ].
Proof.
  intros self context context'.
  apply (on_bar_order_is_logged self context (host_bars self (Some falling)) context').
  vm_compute. reflexivity.
Defined.

(** ** What the decision depends on *)

Lemma on_bar_same_orders self context1 context2 bar_dict context1' context2' :
  (0 < held_quantity_of context1 (symbol self)
   <-> 0 < held_quantity_of context2 (symbol self)) ->
  orders context1 = orders context2 ->
  on_bar self context1 bar_dict = Ok context1' ->
  on_bar self context2 bar_dict = Ok context2' ->
  orders context1' = orders context2'.
Proof.
  intros Hsign Hsame Hrun1 Hrun2.
  destruct (on_bar_orders self context1 bar_dict)
    as [(bar & fp & fc & sp & sc & Hg & H1) | (Hfail & [H1 | H1])];
    rewrite H1 in Hrun1; [| | done]; injection Hrun1 as <-.
  - rewrite (on_bar_defined _ context2 _ _ _ _ _ _ Hg) in Hrun2.
    injection Hrun2 as <-. rewrite !orders_respond, Hsame. f_equal.
    by apply decision_rule_sign.
  - destruct (on_bar_orders self context2 bar_dict)
      as [(bar & fp & fc & sp & sc & Hg & _) | (_ & [H2 | H2])];
      [by destruct (Hfail _ _ _ _ _ Hg) | | congruence].
    rewrite H2 in Hrun2. by injection Hrun2 as <-.
Qed.

(** X4. A context without a position for the symbol is treated as one that
    holds a quantity of 0: on the same bars both get the same orders
    appended. *)
Theorem no_position_is_quantity_zero self context context0 bar_dict context' context0' :
  get_position context (symbol self) = None ->
  get_position context0 (symbol self) = Some {| quantity := 0 |} ->
  orders context0 = orders context ->
  on_bar self context bar_dict = Ok context' ->
  on_bar self context0 bar_dict = Ok context0' ->
  orders context' = orders context0'.
Proof.
  intros Hnone Hzero Hsame Hrun Hrun0.
  apply (on_bar_same_orders self context context0 bar_dict); try done.
  unfold held_quantity_of. by rewrite Hnone, Hzero.
Qed.

Lemma no_position_is_quantity_zero_witness :
  let self := detector_2_3 "AAPL" 100 in
  let context := fresh_context in
  let context0 := host_context self 0 in
  let bar_dict := host_bars self (Some (take 4 rising)) in
  orders (buy (log context (LogSignal 3 BUY "AAPL" (price 11) (decimal 32 3)))
            "AAPL" 100)
  = orders (buy (log context0 (LogSignal 3 BUY "AAPL" (price 11) (decimal 32 3)))
              "AAPL" 100).
Proof.
  intros self context context0 bar_dict.
  apply (no_position_is_quantity_zero self context context0 bar_dict);
    vm_compute; reflexivity.
Defined.

Lemma guards_pass_transfer self bd1 bd2 bars1 bars2 bar fp fc sp sc :
  bd1 !! symbol self = Some (Frame bars1) ->
  bd2 !! symbol self = Some (Frame bars2) ->
  columns bars1 !! "close" = columns bars2 !! "close" ->
  df_empty bars1 = df_empty bars2 ->
  guards_pass self bd1 bar fp fc sp sc ->
  exists bar', guards_pass self bd2 bar' fp fc sp sc.
Proof.
  intros H1 H2 Hclose Hempty (bars & close & Hb & Hc & He & _ & Hrest).
  assert (bars = bars1) as -> by congruence.
  rewrite Hempty in He. rewrite Hclose in Hc.
  destruct (df_empty_false _ He) as [bar' Hbar'].
  exists bar', bars2, close. done.
Qed.

(** X5. The orders [on_bar] places depend on [bar_dict] only through the
    [close] column of the frame stored under the configured symbol (and on
    whether that frame is empty): frames of other symbols, other columns and
    the index values never change the orders. *)
Theorem orders_depend_on_close_only self context bd1 bd2 bars1 bars2 context1 context2 :
  bd1 !! symbol self = Some (Frame bars1) ->
  bd2 !! symbol self = Some (Frame bars2) ->
  columns bars1 !! "close" = columns bars2 !! "close" ->
  df_empty bars1 = df_empty bars2 ->
  on_bar self context bd1 = Ok context1 ->
  on_bar self context bd2 = Ok context2 ->
  orders context1 = orders context2.
Proof.
  intros H1 H2 Hclose Hempty Hrun1 Hrun2.
  destruct (on_bar_orders self context bd1)
    as [(bar & fp & fc & sp & sc & Hg & E1) | (Hfail & [E1 | E1])];
    rewrite E1 in Hrun1; [| | done]; injection Hrun1 as <-.
  - destruct (guards_pass_transfer self bd1 bd2 bars1 bars2 _ _ _ _ _ H1 H2
                Hclose Hempty Hg) as [bar' Hg'].
    rewrite (on_bar_defined _ context _ _ _ _ _ _ Hg') in Hrun2.
    injection Hrun2 as <-. by rewrite !orders_respond.
  - destruct (on_bar_orders self context bd2)
      as [(bar & fp & fc & sp & sc & Hg & _) | (_ & [E2 | E2])]; [| | congruence].
    + destruct (guards_pass_transfer self bd2 bd1 bars2 bars1 _ _ _ _ _ H2 H1
                  (eq_sym Hclose) (eq_sym Hempty) Hg) as [bar' Hg'].
      by destruct (Hfail _ _ _ _ _ Hg').
    + rewrite E2 in Hrun2. by injection Hrun2 as <-.
Qed.

Lemma orders_depend_on_close_only_witness :
  let self := detector_2_3 "AAPL" 100 in
  let context := host_context self 0 in
  let bars2 :=
    {| index := [1700; 1701; 1702; 1703];
       columns := {[ "close" := take 4 rising; "open" := take 4 rising ]} |} in
  orders (buy (log context (LogSignal 3 BUY "AAPL" (price 11) (decimal 32 3)))
            "AAPL" 100)
  = orders (buy (log context (LogSignal 1703 BUY "AAPL" (price 11) (decimal 32 3)))
              "AAPL" 100).
Proof.
  intros self context bars2.
  apply (orders_depend_on_close_only self context
           (host_bars self (Some (take 4 rising)))
           {[ "AAPL" := Frame bars2; "MSFT" := Frame (host_frame falling) ]}
           (host_frame (take 4 rising)) bars2);
    vm_compute; reflexivity.
Defined.

(** ** Configurations and inputs that never trade *)

(** X6. With a window length of zero or less for either average [on_bar]
    never trades on a frame: a negative window makes [rolling] raise, which
    is caught, and a window of zero rows has only not-a-number means. *)
Theorem nonpositive_window_never_trades self context bar_dict :
  frame_or_missing self bar_dict ->
  fast_period self <= 0 \/ slow_period self <= 0 ->
  on_bar self context bar_dict = Ok context.
Proof.
  intros Hframe Hw. apply on_bar_abstains_frame; [done|].
  intros bar fp fc sp sc
    (bars & close & _ & _ & _ & _ & _ & Hfp & _ & Hsp & _ & Nfp & _ & Nsp & _).
  destruct Hw as [Hw | Hw].
  - exact (moving_average_no_window close _ 2 _ ltac:(lia) Hw Hfp Nfp).
  - exact (moving_average_no_window close _ 2 _ ltac:(lia) Hw Hsp Nsp).
Qed.

Lemma nonpositive_window_never_trades_witness :
  let self := {| symbol := "AAPL"; fast_period := 0; slow_period := 3; trade_size := 100 |} in
  on_bar self (host_context self 0) (host_bars self (Some rising))
  = Ok (host_context self 0).
Proof.
  intros self.
  apply (nonpositive_window_never_trades self (host_context self 0)
           (host_bars self (Some rising))).
  - intros d. apply host_bars_frame.
  - left. vm_compute. discriminate.
Defined.

(** X7. With equal window lengths the two averages are the same series, so
    [on_bar] never trades on a frame. *)
Theorem equal_windows_never_trade self context bar_dict :
  frame_or_missing self bar_dict ->
  fast_period self = slow_period self ->
  on_bar self context bar_dict = Ok context.
Proof.
  intros Hframe Heq.
  destruct (on_bar_cases self context bar_dict)
    as [H | [(bar & fp & fc & sp & sc & Hg & ->) | (d & Hd & _)]];
    [done | | by destruct (Hframe d)].
  f_equal.
  destruct Hg as (bars & close & _ & _ & _ & _ & _ & _ & Hfc & _ & Hsc & _).
  rewrite Heq in Hfc. assert (sc = fc) as -> by congruence.
  apply respond_level.
Qed.

Lemma equal_windows_never_trade_witness :
  let self := {| symbol := "AAPL"; fast_period := 2; slow_period := 2; trade_size := 100 |} in
  on_bar self (host_context self 0) (host_bars self (Some rising))
  = Ok (host_context self 0).
Proof.
  intros self.
  apply (equal_windows_never_trade self (host_context self 0)
           (host_bars self (Some rising))).
  - intros d. apply host_bars_frame.
  - reflexivity.
Defined.

(** X8. Warm-up: as long as the [close] column has no more rows than the
    longer of the two windows, [on_bar] does not trade, whichever window is
    the longer one. *)
Theorem warm_up_never_trades self context bar_dict bars close :
  bar_dict !! symbol self = Some (Frame bars) ->
  columns bars !! "close" = Some close ->
  Z.of_nat (length close) <= Z.max (fast_period self) (slow_period self) ->
  on_bar self context bar_dict = Ok context.
Proof.
  intros Hbars Hclose Hlen. apply on_bar_abstains_frame; [unfold frame_or_missing; congruence|].
  intros bar fp fc sp sc
    (bars' & close' & Hb & Hc & _ & _ & _ & Hfp & _ & Hsp & _ & Nfp & _ & Nsp & _).
  assert (bars' = bars) as -> by congruence.
  assert (close' = close) as -> by congruence.
  pose proof (moving_average_prev_full _ _ _ Hfp Nfp).
  pose proof (moving_average_prev_full _ _ _ Hsp Nsp). lia.
Qed.

Lemma warm_up_never_trades_witness :
  let self := {| symbol := "AAPL"; fast_period := 4; slow_period := 3; trade_size := 100 |} in
  on_bar self (host_context self 0) (host_bars self (Some (take 4 rising)))
  = Ok (host_context self 0).
Proof.
  intros self.
  apply (warm_up_never_trades self (host_context self 0)
           (host_bars self (Some (take 4 rising)))
           (host_frame (take 4 rising)) (take 4 rising));
    [reflexivity | reflexivity | vm_compute; discriminate].
Defined.

(** ** When an order is placed *)



(** X10. The held quantity matters only through whether it is positive: two
    contexts with the same orders so far whose held quantities are both
    positive, or both not, get the same orders from [on_bar] on the same
    bars.  A short position is treated like a flat one. *)
Theorem only_sign_of_quantity_matters self context1 context2 bar_dict context1' context2' :
  (0 < held_quantity_of context1 (symbol self)
   <-> 0 < held_quantity_of context2 (symbol self)) ->
  orders context1 = orders context2 ->
  on_bar self context1 bar_dict = Ok context1' ->
  on_bar self context2 bar_dict = Ok context2' ->
  orders context1' = orders context2'.
Proof. apply on_bar_same_orders. Qed.

Lemma only_sign_of_quantity_matters_witness :
  let self := detector_2_3 "AAPL" 100 in
  let context1 := host_context self (-40) in
  let context2 := host_context self 0 in
  orders (buy (log context1 (LogSignal 3 BUY "AAPL" (price 11) (decimal 32 3)))
            "AAPL" 100)
  = orders (buy (log context2 (LogSignal 3 BUY "AAPL" (price 11) (decimal 32 3)))
              "AAPL" 100).
Proof.
  intros self context1 context2.
  apply (only_sign_of_quantity_matters self context1 context2
           (host_bars self (Some (take 4 rising))));
    [vm_compute; split; discriminate | reflexivity
    | vm_compute; reflexivity | vm_compute; reflexivity].
Defined.

(** ** Not-a-number prices in the lookback *)

(** X11. A not-a-number price anywhere in the last [max(fast_period,
    slow_period) + 1] rows of the [close] column keeps [on_bar] from
    trading. *)
Theorem nan_in_lookback_never_trades self context bar_dict bars close :
  bar_dict !! symbol self = Some (Frame bars) ->
  columns bars !! "close" = Some close ->
  In NaN (lastn (S (Z.to_nat (Z.max (fast_period self) (slow_period self)))) close) ->
  on_bar self context bar_dict = Ok context.
Proof.
  intros Hbars Hclose Hin.
  apply on_bar_abstains_frame; [unfold frame_or_missing; congruence|].
  intros bar fp fc sp sc
    (bars' & close' & Hb & Hc & _ & _ & _ & Hfp & Hfc & Hsp & Hsc & Nfp & Nfc & Nsp & Nsc).
  assert (bars' = bars) as -> by congruence.
  assert (close' = close) as -> by congruence.
  destruct (Z.max_spec (fast_period self) (slow_period self)) as [[_ Hmax] | [_ Hmax]];
    rewrite Hmax in Hin.
  - exact (nan_in_lookback _ _ _ _ Hin Hsp Nsp Hsc Nsc).
  - exact (nan_in_lookback _ _ _ _ Hin Hfp Nfp Hfc Nfc).
Qed.

Lemma nan_in_lookback_never_trades_witness :
  let self := detector_2_3 "AAPL" 100 in
  let close := [price 10; NaN; price 10; price 10; price 12] in
  on_bar self (host_context self 0) (host_bars self (Some close))
  = Ok (host_context self 0).
Proof.
  intros self close.
  apply (nan_in_lookback_never_trades self (host_context self 0)
           (host_bars self (Some close)) (host_frame close) close);
    [reflexivity | reflexivity | vm_compute; left; reflexivity].
Defined.

(** ** [initialize] followed by [on_bar] *)

(** X12. After [initialize], whatever the context held before, a call of
    [on_bar] on a frame returns normally with ["AAPL"] as the only
    subscribed symbol, the positions untouched, the earlier log followed by
    the initialisation line, and the earlier orders followed only by orders
    for 100 shares of ["AAPL"]. *)
Theorem initialize_then_on_bar context0 bar_dict :
  frame_or_missing (initialize context0).1 bar_dict ->
  exists context',
    on_bar (initialize context0).1 (initialize context0).2 bar_dict = Ok context'
    /\ symbols context' = ["AAPL"]
    /\ positions context' = positions context0
    /\ (exists lines,
          log_lines context' = log_lines context0 ++ LogInitialized "AAPL" :: lines)
    /\ (exists decisions,
          orders context' = orders context0 ++ decisions
          /\ forall d, In d decisions -> instrument d = "AAPL" /\ shares d = 100).
Proof.
  set (self := (initialize context0).1). set (context := (initialize context0).2).
  intros Hframe.
  assert (forall c, c = context \/ (exists bar a fc sc,
            c = submit (log context (LogSignal bar a (symbol self) fc sc))
                  {| action := a; instrument := symbol self; shares := trade_size self |}) ->
          symbols c = ["AAPL"]
          /\ positions c = positions context0
          /\ (exists lines,
                log_lines c = log_lines context0 ++ LogInitialized "AAPL" :: lines)
          /\ (exists decisions,
                orders c = orders context0 ++ decisions
                /\ forall d, In d decisions -> instrument d = "AAPL" /\ shares d = 100))
    as Hshape.
  { intros c [-> | (bar & a & fc & sc & ->)]; simpl.
    - repeat (split; [done|]). split; [by exists []|].
      exists []. by rewrite app_nil_r.
    - repeat (split; [done|]). split.
      + eexists. by rewrite <- app_assoc.
      + eexists. split; [done|]. by intros d [<- | []]. }
  destruct (on_bar_cases self context bar_dict)
    as [H | [(bar & fp & fc & sp & sc & _ & H) | (d & Hd & _)]];
    [| | by destruct (Hframe d)]; rewrite H.
  - eexists. split; [done|]. apply Hshape. by left.
  - eexists. split; [done|]. apply Hshape.
    destruct (respond_cases self context bar fp fc sp sc) as [-> | [a ->]];
      [by left | right; eauto].
Qed.

Lemma initialize_then_on_bar_witness :
  exists context',
    on_bar (initialize fresh_context).1 (initialize fresh_context).2
      {[ "AAPL" := Frame (host_frame (replicate 30 (price 10) ++ [price 20])) ]}
    = Ok context'
    /\ symbols context' = ["AAPL"]
    /\ positions context' = positions fresh_context
    /\ (exists lines,
          log_lines context' = log_lines fresh_context ++ LogInitialized "AAPL" :: lines)
    /\ (exists decisions,
          orders context' = orders fresh_context ++ decisions
          /\ forall d, In d decisions -> instrument d = "AAPL" /\ shares d = 100).
Proof.
  apply (initialize_then_on_bar fresh_context
           {[ "AAPL" := Frame (host_frame (replicate 30 (price 10) ++ [price 20])) ]}).
  intros d. vm_compute. discriminate.
Defined.

(** ** Missing data *)

(** X14. When [bar_dict] has no entry for the symbol, or the entry has no
    [close] column, or the frame is empty, [on_bar] returns the context as it
    was: no log line, no order, no exception. *)
Theorem missing_data_is_ignored self context bar_dict :
  bar_dict !! symbol self = None
  \/ (exists bars,
        bar_dict !! symbol self = Some bars /\ column bars "close" = None)
  \/ (exists bars,
        bar_dict !! symbol self = Some (Frame bars) /\ df_empty bars = true) ->
  on_bar self context bar_dict = Ok context.
Proof.
  unfold on_bar.
  intros [-> | [(bars & -> & ->) | (bars & -> & Hempty)]]; [done | done |].
  cbn [column empty mbind exn_bind]. rewrite Hempty.
  by destruct (columns bars !! "close").
Qed.

Lemma missing_data_is_ignored_witness :
  let self := detector_2_3 "AAPL" 100 in
  let bars := {| index := [0; 1; 2; 3]; columns := {[ "open" := take 4 rising ]} |} in
  on_bar self (host_context self 0) {[ "AAPL" := Frame bars ]} = Ok (host_context self 0).
Proof.
  intros self bars.
  apply (missing_data_is_ignored self (host_context self 0) {[ "AAPL" := Frame bars ]}).
  right. left. exists (Frame bars). split; reflexivity.
Defined.

(** ** Consecutive bars *)

(** X15. The same action is never signalled on two consecutive bars: if
    [evaluate] returns a BUY (a SELL) on a history, then on that history
    extended by one more price it returns no BUY (no SELL), whatever the
    price and whatever the position then is. *)
Theorem no_repeat_on_next_bar self (h : Series) q decisions d p q' decisions' d' :
  evaluate self (Some h) q = Ok decisions ->
  In d decisions ->
  evaluate self (Some (h ++ [p])) q' = Ok decisions' ->
  In d' decisions' ->
  action d' <> action d.
Proof.
  intros Hrun Hin Hrun' Hin' Hsame.
  destruct (evaluate_cases self (Some h) q)
    as [H | (l & fp & fc & sp & sc & [= <-] & (_ & _ & Hfc & _ & Hsc & _) & H)];
    rewrite H in Hrun; injection Hrun as <-; [done|].
  destruct (evaluate_cases self (Some (h ++ [p])) q')
    as [H' | (l & fp' & fc' & sp' & sc' & [= <-] & (_ & Hfp' & _ & Hsp' & _) & H')];
    rewrite H' in Hrun'; injection Hrun' as <-; [done|].
  rewrite moving_average_snoc in Hfp', Hsp'.
  assert (fp' = fc) as -> by congruence.
  assert (sp' = sc) as -> by congruence.
  apply decision_rule_sound in Hin, Hin'. rewrite Hsame in Hin'.
  destruct (action d).
  - destruct Hin as (_ & Hgt & _), Hin' as (Hle & _).
    unfold fgt in Hgt. unfold fle, SpecFloat.SFleb in Hle.
    unfold flt, SpecFloat.SFltb in Hgt. rewrite (SFcompare_antisym fc sc) in Hgt.
    by destruct (SpecFloat.SFcompare fc sc) as [[]|].
  - destruct Hin as (_ & Hlt & _), Hin' as (Hge & _).
    unfold fge, fle, SpecFloat.SFleb in Hge.
    unfold flt, SpecFloat.SFltb in Hlt. rewrite (SFcompare_antisym fc sc) in Hge.
    by destruct (SpecFloat.SFcompare fc sc) as [[]|].
Qed.

Lemma no_repeat_on_next_bar_witness :
  action {| action := SELL; instrument := "AAPL"; shares := 100 |}
  <> action {| action := BUY; instrument := "AAPL"; shares := 100 |}.
Proof.
  apply (no_repeat_on_next_bar (detector_2_3 "AAPL" 100) (take 4 rising) 0
           [ {| action := BUY; instrument := "AAPL"; shares := 100 |} ]
           {| action := BUY; instrument := "AAPL"; shares := 100 |}
           (price 2) 100
           [ {| action := SELL; instrument := "AAPL"; shares := 100 |} ]
           {| action := SELL; instrument := "AAPL"; shares := 100 |});
    [vm_compute; reflexivity | left; reflexivity
    | vm_compute; reflexivity | left; reflexivity].
Defined.
